(** * Recon: the observer (React front end) and the session core

    The repository's front end, [frontend/src/App.jsx], is embedded in
    [Module Observer]: the component's state, its WebSocket and upload
    handlers, and the [LogEntry] renderer, written as state transformers
    in a small state-and-exception monad so that each definition can be
    read next to the JavaScript function it comes from.

    The session core (orchestrator, tool registry, crop tool) is the
    Python back end, which is not part of the sources at hand; it is
    embedded in [Module Core] from the design document and every
    definition there says so. *)

From Stdlib Require Import QArith Qminmax Lqa.
From stdpp Require Import gmap strings list.

Open Scope string_scope.

(* ===================================================================== *)
(** * The observer: [frontend/src/App.jsx]                                *)
(* ===================================================================== *)

Module Observer.

(** ** JavaScript values *)

(** What [JSON.parse] returns.  The handlers never compute with numbers,
    they only compare them with strings and print them, so a number is
    kept as its canonical rendering (the result of [ToString]). *)
#[warnings="-register-all"]
Inductive JSON : Type :=
| JNull
| JBool (b : bool)
| JNum (repr : string)
| JStr (s : string)
| JArr (items : list JSON)
| JObj (props : gmap string JSON).

(** What a property read can return: nothing ([undefined]), a JSON value,
    or one of the members every ordinary object inherits from
    [Object.prototype] (its methods, and the prototype object itself
    through [__proto__]). *)
Inductive JSValue : Type :=
| JUndefined
| JVal (j : JSON)
| JFunction (name : string)
| JObjectPrototype.

Definition js_str (s : string) : JSValue := JVal (JStr s).

(** [ToString] on JSON values; [None] when it throws a [TypeError].  An
    array joins the conversions of its elements with commas, [null]
    elements printing as nothing, and throws when one of them does.  An
    object is converted by its [toString] and, failing that, its
    [valueOf]: without an own [toString] key the inherited method gives
    "[object Object]"; with one, the key's value (a JSON value, so not a
    function) hides the inherited method, [valueOf] (own and no function
    either, or inherited and returning the object itself) gives no
    primitive, and the conversion throws. *)
Fixpoint json_to_string (j : JSON) : option string :=
  match j with
  | JNull => Some "null"
  | JBool true => Some "true"
  | JBool false => Some "false"
  | JNum repr => Some repr
  | JStr s => Some s
  | JArr items =>
      option_map (String.concat ",")
        ((fix each (l : list JSON) : option (list string) :=
            match l with
            | [] => Some []
            | e :: l' =>
                match (match e with
                       | JNull => Some EmptyString
                       | _ => json_to_string e
                       end), each l' with
                | Some text, Some texts => Some (text :: texts)
                | _, _ => None
                end
            end) items)
  | JObj props =>
      match props !! "toString" with
      | Some _ => None
      | None => Some "[object Object]"
      end
  end.

(** [ToString], as applied by a template literal and by a computed
    property key; [None] when it throws a [TypeError]. *)
Definition to_string (v : JSValue) : option string :=
  match v with
  | JUndefined => Some "undefined"
  | JVal j => json_to_string j
  | JFunction name => Some ("function " ++ name ++ "() { [native code] }")
  | JObjectPrototype => Some "[object Object]"
  end.

(** What [JSON.stringify] writes for a value made by [JSON.parse], as
    the JSON document its output denotes: the value itself, except that
    a number that is not finite ([1e400] parses to [Infinity]) is
    written as [null], at any depth. *)
Fixpoint json_serialize (j : JSON) : JSON :=
  match j with
  | JNum repr =>
      if bool_decide (repr ∈ ["Infinity"; "-Infinity"; "NaN"]) then JNull
      else JNum repr
  | JArr items => JArr (List.map json_serialize items)
  | JObj props => JObj (json_serialize <$> props)
  | JNull | JBool _ | JStr _ => j
  end.

(** Whether React accepts a value as a child of an element: strings,
    numbers, booleans and [null] are accepted, an array when all its
    elements are, a plain object is not ("Objects are not valid as a
    React child"). *)
Fixpoint json_child_valid (j : JSON) : bool :=
  match j with
  | JObj _ => false
  | JArr items => forallb json_child_valid items
  | JNull | JBool _ | JNum _ | JStr _ => true
  end.

Definition child_valid (v : JSValue) : bool :=
  match v with
  | JVal j => json_child_valid j
  | JObjectPrototype => false
  | JUndefined | JFunction _ => true
  end.

(** [ToBoolean], as applied by [||]. *)
Definition truthy (v : JSValue) : bool :=
  match v with
  | JUndefined => false
  | JVal JNull => false
  | JVal (JBool b) => b
  | JVal (JNum repr) => negb (bool_decide (repr = "0"))
  | JVal (JStr s) => negb (bool_decide (s = EmptyString))
  | JVal (JArr _) | JVal (JObj _) => true
  | JFunction _ | JObjectPrototype => true
  end.

(** [a || b] *)
Definition js_or (a b : JSValue) : JSValue := if truthy a then a else b.

(** [v === 'literal'] *)
Definition strict_eq_str (v : JSValue) (literal : string) : bool :=
  match v with
  | JVal (JStr s) => bool_decide (s = literal)
  | _ => false
  end.

(** The members of [Object.prototype]. *)
Definition object_prototype_methods : list string :=
  [ "hasOwnProperty"; "isPrototypeOf"; "propertyIsEnumerable";
    "toLocaleString"; "toString"; "valueOf";
    "__defineGetter__"; "__defineSetter__";
    "__lookupGetter__"; "__lookupSetter__" ].

Definition object_prototype_get (key : string) : JSValue :=
  if bool_decide (key = "constructor") then JFunction "Object"
  else if bool_decide (key = "__proto__") then JObjectPrototype
  else if bool_decide (key ∈ object_prototype_methods) then JFunction key
  else JUndefined.

(** [obj[key]] on an ordinary object (an object literal, or an object
    made by [JSON.parse]): the object's own property when it has one,
    what the prototype chain gives otherwise. *)
Definition object_get (own : gmap string JSON) (key : string) : JSValue :=
  match own !! key with
  | Some j => JVal j
  | None => object_prototype_get key
  end.

(** ** Component state *)

(** The entry [addLog] builds: [{ type, content, timestamp }]. *)
Record LogRecord : Type := mkLog {
  log_type : JSValue;
  log_content : JSValue;
  log_timestamp : string
}.

(** A [File] chosen in the file input. *)
Record File : Type := mkFile {
  file_name : string;
  file_bytes : list Byte.byte
}.

Inductive ReadyState : Type := CONNECTING | OPEN | CLOSING | CLOSED.

#[export] Instance ReadyState_eq_dec : EqDecision ReadyState.
Proof. solve_decision. Defined.

(** A [WebSocket] object: where it connects to, its [readyState], and the
    messages handed to the network by [send], oldest first.  A message is
    kept as the JSON document its text denotes. *)
Record Socket : Type := mkSocket {
  sock_url : string;
  readyState : ReadyState;
  sock_sent : list JSON
}.

(** A [fetch] call: URL, method and the [FormData] body. *)
Record Request : Type := mkRequest {
  req_url : string;
  req_method : string;
  req_body : list (string * File)
}.

(** The [useState] cells of [App], the [wsRef] ref, and the part of the
    browser the component acts on: every socket created so far (a socket
    is named by its position) and every request issued so far.  State
    updates take effect in the order in which the setters are called,
    which is the order in which React applies its update queue, and a
    handler reads the state left by the handlers before it.  [mounted]
    tells whether React still has the component in the tree; once it has
    not, nothing is shown and the cells can no longer be observed, while
    the sockets keep the handlers [connect] gave them. *)
Record World : Type := mkWorld {
  connected : bool;
  logs : list LogRecord;
  imageFile : option File;
  previewUrl : option string;
  zoomedImage : option string;
  loading : bool;
  autoScroll : bool;
  wsRef : option nat;
  sockets : list Socket;
  requests : list Request;
  mounted : bool
}.

(** The state of a freshly mounted component, before any effect runs. *)
Definition initial_world : World :=
  {| connected := false; logs := []; imageFile := None; previewUrl := None;
     zoomedImage := None; loading := false; autoScroll := true;
     wsRef := None; sockets := []; requests := []; mounted := true |}.

Definition with_connected (b : bool) (w : World) : World :=
  mkWorld b (logs w) (imageFile w) (previewUrl w) (zoomedImage w)
          (loading w) (autoScroll w) (wsRef w) (sockets w) (requests w) (mounted w).
Definition with_logs (l : list LogRecord) (w : World) : World :=
  mkWorld (connected w) l (imageFile w) (previewUrl w) (zoomedImage w)
          (loading w) (autoScroll w) (wsRef w) (sockets w) (requests w) (mounted w).
Definition with_imageFile (f : option File) (w : World) : World :=
  mkWorld (connected w) (logs w) f (previewUrl w) (zoomedImage w)
          (loading w) (autoScroll w) (wsRef w) (sockets w) (requests w) (mounted w).
Definition with_previewUrl (u : option string) (w : World) : World :=
  mkWorld (connected w) (logs w) (imageFile w) u (zoomedImage w)
          (loading w) (autoScroll w) (wsRef w) (sockets w) (requests w) (mounted w).
Definition with_zoomedImage (u : option string) (w : World) : World :=
  mkWorld (connected w) (logs w) (imageFile w) (previewUrl w) u
          (loading w) (autoScroll w) (wsRef w) (sockets w) (requests w) (mounted w).
Definition with_loading (b : bool) (w : World) : World :=
  mkWorld (connected w) (logs w) (imageFile w) (previewUrl w) (zoomedImage w)
          b (autoScroll w) (wsRef w) (sockets w) (requests w) (mounted w).
Definition with_autoScroll (b : bool) (w : World) : World :=
  mkWorld (connected w) (logs w) (imageFile w) (previewUrl w) (zoomedImage w)
          (loading w) b (wsRef w) (sockets w) (requests w) (mounted w).
Definition with_wsRef (r : option nat) (w : World) : World :=
  mkWorld (connected w) (logs w) (imageFile w) (previewUrl w) (zoomedImage w)
          (loading w) (autoScroll w) r (sockets w) (requests w) (mounted w).
Definition with_sockets (s : list Socket) (w : World) : World :=
  mkWorld (connected w) (logs w) (imageFile w) (previewUrl w) (zoomedImage w)
          (loading w) (autoScroll w) (wsRef w) s (requests w) (mounted w).
Definition with_requests (r : list Request) (w : World) : World :=
  mkWorld (connected w) (logs w) (imageFile w) (previewUrl w) (zoomedImage w)
          (loading w) (autoScroll w) (wsRef w) (sockets w) r (mounted w).
Definition with_mounted (b : bool) (w : World) : World :=
  mkWorld (connected w) (logs w) (imageFile w) (previewUrl w) (zoomedImage w)
          (loading w) (autoScroll w) (wsRef w) (sockets w) (requests w) b.

(** ** Handlers as effectful computations *)

(** A handler either completes or throws. *)
Inductive Completion (A : Type) : Type :=
| Normal (a : A)
| Thrown (error : string).
Arguments Normal {A} a.
Arguments Thrown {A} error.

Definition Eff (A : Type) : Type := World -> Completion A * World.

Definition ret {A} (a : A) : Eff A := fun w => (Normal a, w).

Definition bind {A B} (c : Eff A) (k : A -> Eff B) : Eff B :=
  fun w => match c w with
           | (Normal a, w') => k a w'
           | (Thrown e, w') => (Thrown e, w')
           end.

Definition throw {A} (e : string) : Eff A := fun w => (Thrown e, w).

(** [try { body } catch (err) { handler }] *)
Definition try_catch (body handler : Eff unit) : Eff unit :=
  fun w => match body w with
           | (Normal a, w') => (Normal a, w')
           | (Thrown _, w') => handler w'
           end.

Definition get : Eff World := fun w => (Normal w, w).
Definition modify (f : World -> World) : Eff unit := fun w => (Normal tt, f w).

Declare Scope eff_scope.
Delimit Scope eff_scope with eff.
Bind Scope eff_scope with Eff.
Notation "'let*' x ':=' c 'in' k" := (bind c (fun x => k))
  (at level 10, x name, c at level 100, k at level 200) : eff_scope.
Notation "c ';;' k" := (bind c (fun _ => k))
  (at level 100, k at level 200, right associativity) : eff_scope.
Open Scope eff_scope.

(** The state the handler leaves behind; an exception nobody catches
    ends the handler and keeps the updates made before it. *)
Definition run {A} (c : Eff A) (w : World) : World := snd (c w).

(** *** State setters and browser primitives *)

Definition setConnected (b : bool) : Eff unit := modify (with_connected b).
Definition setLogs (l : list LogRecord) : Eff unit := modify (with_logs l).
Definition setImageFile (f : option File) : Eff unit := modify (with_imageFile f).
Definition setPreviewUrl (u : option string) : Eff unit := modify (with_previewUrl u).
Definition setZoomedImage (u : option string) : Eff unit := modify (with_zoomedImage u).
Definition setLoading (b : bool) : Eff unit := modify (with_loading b).
Definition setAutoScroll (b : bool) : Eff unit := modify (with_autoScroll b).

(** [new WebSocket(url)]: a new socket, in state [CONNECTING]. *)
Definition new_WebSocket (url : string) : Eff nat :=
  fun w => (Normal (length (sockets w)),
            with_sockets (sockets w ++ [mkSocket url CONNECTING []]) w).

(** The browser moving a socket to another [readyState]. *)
Definition set_readyState (id : nat) (st : ReadyState) : Eff unit :=
  modify (fun w =>
    match sockets w !! id with
    | Some s => with_sockets (<[id := mkSocket (sock_url s) st (sock_sent s)]> (sockets w)) w
    | None => w
    end).

(** [wsRef.current.send(msg)]: a [TypeError] on a null ref, an
    [InvalidStateError] while the socket is still connecting, the message
    handed to the network when it is open, and silently dropped once it
    is closing or closed. *)
Definition ws_send (msg : JSON) : Eff unit :=
  fun w =>
    match wsRef w with
    | None => (Thrown "TypeError", w)
    | Some id =>
        match sockets w !! id with
        | None => (Thrown "TypeError", w)
        | Some s =>
            match readyState s with
            | CONNECTING => (Thrown "InvalidStateError", w)
            | OPEN =>
                (Normal tt,
                 with_sockets
                   (<[id := mkSocket (sock_url s) OPEN (sock_sent s ++ [msg])]> (sockets w)) w)
            | CLOSING | CLOSED => (Normal tt, w)
            end
        end
    end.

(** [wsRef.current.close()] *)
Definition ws_close : Eff unit :=
  fun w =>
    match wsRef w with
    | None => (Normal tt, w)
    | Some id =>
        match sockets w !! id with
        | Some s =>
            match readyState s with
            | CLOSED => (Normal tt, w)
            | _ => set_readyState id CLOSING w
            end
        | None => (Normal tt, w)
        end
    end.

(** [fetch(url, { method, body })]: the request is issued; its outcome
    arrives later, as a separate event. *)
Definition fetch (url method : string) (body : list (string * File)) : Eff unit :=
  modify (fun w => with_requests (requests w ++ [mkRequest url method body]) w).

(** [JSON.parse(event.data)]; the frame's text is taken through its
    parse: [None] when it is not JSON, in which case [JSON.parse] throws. *)
Definition JSON_parse (text : option JSON) : Eff JSON :=
  match text with
  | Some j => ret j
  | None => throw "SyntaxError"
  end.

(** [await fetch(...)] followed by [await res.json()]: [None] when the
    request failed or the body is not JSON, in which case the [await]
    throws. *)
Definition await_json (response : option JSON) : Eff JSON :=
  match response with
  | Some j => ret j
  | None => throw "TypeError"
  end.

(** [data.key] for the keys the handlers read ([type], [url], [content],
    [file_path]): a [TypeError] on [null]; on an object, its property; on
    a string, number, boolean or array [undefined], none of these keys
    being defined by their prototypes. *)
Definition prop (data : JSON) (key : string) : Eff JSValue :=
  match data with
  | JNull => throw "TypeError"
  | JObj own => ret (object_get own key)
  | _ => ret JUndefined
  end.

(** The string conversion inside a template literal. *)
Definition ToString (v : JSValue) : Eff string :=
  match to_string v with
  | Some text => ret text
  | None => throw "TypeError"
  end.

(** [JSON.stringify({ file_path: v })]: a property whose value is
    [undefined] or a function is left out, and the value is written as
    [json_serialize] says. *)
Definition JSON_stringify_file_path (v : JSValue) : JSON :=
  match v with
  | JVal j => JObj {[ "file_path" := json_serialize j ]}
  | JObjectPrototype => JObj {[ "file_path" := JObj ∅ ]}
  | JUndefined | JFunction _ => JObj ∅
  end.

(** *** The component's functions, in source order *)

(** [wsRef.current && wsRef.current.readyState === WebSocket.OPEN] *)
Definition current_socket_open (w : World) : bool :=
  match wsRef w with
  | Some id =>
      match sockets w !! id with
      | Some s => bool_decide (readyState s = OPEN)
      | None => false
      end
  | None => false
  end.

(** [connect]: the four handlers it installs are the same for every
    socket and are the [ws_on...] definitions below. *)
Definition connect : Eff unit :=
  let* w := get in
  if current_socket_open w then ret tt
  else
    let* ws := new_WebSocket "ws://localhost:8000/ws" in
    modify (with_wsRef (Some ws)).

(** [addLog]; [now] is [new Date().toLocaleTimeString()]. *)
Definition addLog (type content : JSValue) (now : string) : Eff unit :=
  modify (fun w => with_logs (logs w ++ [mkLog type content now]) w).

Definition ws_onopen : Eff unit :=
  setConnected true ;;
  setLogs [].

Definition ws_onmessage (event_data : option JSON) (now : string) : Eff unit :=
  let* data := JSON_parse event_data in
  let* type := prop data "type" in
  if strict_eq_str type "new_image" then
    let* url := prop data "url" in
    let* url_text := ToString url in
    setZoomedImage (Some ("http://localhost:8000" ++ url_text)) ;;
    addLog (js_str "tool_result") (js_str "Received High-Res Crop.") now
  else if strict_eq_str type "session_end" then
    setLoading false ;;
    let* content := prop data "content" in
    addLog (js_str "system") content now
  else
    let* content := prop data "content" in
    addLog type content now.

Definition ws_onclose (now : string) : Eff unit :=
  setConnected false ;;
  addLog (js_str "error") (js_str "Connection Lost. Reconnect required.") now ;;
  setLoading false.

Definition ws_onerror (now : string) : Eff unit :=
  addLog (js_str "error") (js_str "Connection Error.") now ;;
  setLoading false.

(** [handleFileSelect]; [file] is [e.target.files[0]] and [blob_url] what
    [URL.createObjectURL] returns for it. *)
Definition handleFileSelect (file : option File) (blob_url now : string) : Eff unit :=
  match file with
  | Some f =>
      setImageFile (Some f) ;;
      setPreviewUrl (Some blob_url) ;;
      addLog (js_str "user") (js_str ("Image selected: " ++ file_name f)) now
  | None => ret tt
  end.

(** [startInvestigation], up to the first [await]: the guard, the three
    resets and the upload request. *)
Definition startInvestigation : Eff unit :=
  let* w := get in
  match imageFile w, connected w with
  | Some file, true =>
      setLoading true ;;
      setLogs [] ;;
      setZoomedImage None ;;
      fetch "http://localhost:8000/upload" "POST" [("file", file)]
  | _, _ => ret tt
  end.

(** [startInvestigation], from the first [await] on: the rest of the
    [try] block once the upload has settled, and the [catch]. *)
Definition startInvestigation_resume (response : option JSON) (now : string) : Eff unit :=
  try_catch
    (let* data := await_json response in
     let* file_path := prop data "file_path" in
     ws_send (JSON_stringify_file_path file_path))
    (addLog (js_str "error") (js_str "Upload Failed.") now ;;
     setLoading false).

(** The clean-up of the mount effect. *)
Definition unmount : Eff unit :=
  let* w := get in
  match wsRef w with
  | Some _ => ws_close
  | None => ret tt
  end.

(** React taking the component out of the tree: the clean-up runs and
    the component is gone. *)
Definition unmount_tree : Eff unit :=
  unmount ;;
  modify (with_mounted false).

(** ** The renderer *)

(** The [styles] table of [LogEntry]. *)
Definition styles : gmap string JSON :=
  list_to_map
    [ ("system", JStr "text-magma-600 font-bold");
      ("user", JStr "text-stone-400");
      ("agent_thought", JStr "text-magma-100");
      ("tool_call", JStr "text-amber-500");
      ("tool_result", JStr "text-emerald-500");
      ("error", JStr "text-red-500 bg-red-900/10");
      ("turn_start",
       JStr "text-magma-400 font-bold pt-4 border-b border-magma-900/30 mb-2 inline-block w-full") ].

(** The [<div className=...>{content}</div>] element. *)
Record Element : Type := mkElement {
  className : string;
  children : JSValue
}.

Definition default_style : string := "text-gray-400".
Definition common_classes : string :=
  " whitespace-pre-wrap break-words font-mono leading-relaxed".

(** [LogEntry]; it throws a [TypeError] when the computed key
    [styles[type]] or the template literal has no string conversion. *)
Definition LogEntry (log : LogRecord) : Completion Element :=
  let type := log_type log in
  let content := log_content log in
  match to_string type with
  | None => Thrown "TypeError"
  | Some key =>
      match to_string (js_or (object_get styles key) (js_str default_style)) with
      | None => Thrown "TypeError"
      | Some style =>
          Normal {| className := style ++ common_classes; children := content |}
      end
  end.

(** Whether React can render an entry's line: [LogEntry] returns an
    element and the element's child is one React accepts. *)
Definition entry_renders (log : LogRecord) : bool :=
  match LogEntry log with
  | Normal line => child_valid (children line)
  | Thrown _ => false
  end.

(** Whether React can render the component in a state: the log lines
    are the only part of the JSX that can fail. *)
Definition renders (w : World) : bool := forallb entry_renders (logs w).

(** ** The component as a transition system *)

(** What can happen to a mounted component.  A socket event names its
    socket; the browser updates [readyState] before it calls the handler. *)
Inductive Event : Type :=
| Mount
| ClickConnect
| WsOpen (id : nat)
| WsMessage (id : nat) (event_data : option JSON) (now : string)
| WsClose (id : nat) (now : string)
| WsError (id : nat) (now : string)
| FileSelect (file : option File) (blob_url now : string)
| ClickStart
| UploadSettled (response : option JSON) (now : string)
| ToggleAutoScroll
| Unmount.

Definition handler (e : Event) : Eff unit :=
  match e with
  | Mount | ClickConnect => connect
  | WsOpen id => set_readyState id OPEN ;; ws_onopen
  | WsMessage _ event_data now => ws_onmessage event_data now
  | WsClose id now => set_readyState id CLOSED ;; ws_onclose now
  | WsError _ now => ws_onerror now
  | FileSelect file blob_url now => handleFileSelect file blob_url now
  | ClickStart => startInvestigation
  | UploadSettled response now => startInvestigation_resume response now
  | ToggleAutoScroll => let* w := get in setAutoScroll (negb (autoScroll w))
  | Unmount => unmount_tree
  end.

(** React rendering the component again after a handler has run.  A
    mounted component has rendered the state it was in; when the state
    the handler leaves no longer renders, the error reaches the root,
    there being no error boundary, and React unmounts the tree.  The
    handlers stay on the sockets and go on acting on the cells, which
    nothing shows any more. *)
Definition rerender (before after : World) : World :=
  if mounted after && renders before && negb (renders after)
  then run unmount_tree after
  else after.

Definition step (w : World) (e : Event) : World :=
  rerender w (run (handler e) w).

Definition run_events (es : list Event) (w : World) : World := fold_left step es w.

(** ** Vocabulary for the statements *)

(** The request [startInvestigation] issues for a file. *)
Definition upload_request (file : File) : Request :=
  mkRequest "http://localhost:8000/upload" "POST" [("file", file)].

(** The message that starts a session on an image reference. *)
Definition start_message (reference : JSON) : JSON :=
  JObj {[ "file_path" := reference ]}.

(** A socket after one more message has been handed to the network. *)
Definition transmitted (msg : JSON) (s : Socket) : Socket :=
  mkSocket (sock_url s) (readyState s) (sock_sent s ++ [msg]).

(** A received frame, with the time at which it is handled. *)
Record Frame : Type := mkFrame {
  frame_socket : nat;
  frame_data : JSON;
  frame_time : string
}.

Definition frame_event (f : Frame) : Event :=
  WsMessage (frame_socket f) (Some (frame_data f)) (frame_time f).

(** [data.key] where [data] is not [null]. *)
Definition prop_value (data : JSON) (key : string) : JSValue :=
  match data with
  | JObj own => object_get own key
  | _ => JUndefined
  end.

(** The log entry a frame is projected to. *)
Definition frame_entry (f : Frame) : LogRecord :=
  let type := prop_value (frame_data f) "type" in
  if strict_eq_str type "new_image" then
    mkLog (js_str "tool_result") (js_str "Received High-Res Crop.") (frame_time f)
  else if strict_eq_str type "session_end" then
    mkLog (js_str "system") (prop_value (frame_data f) "content") (frame_time f)
  else
    mkLog type (prop_value (frame_data f) "content") (frame_time f).


(** [wsRef.current], when set, is one of the sockets created so far. *)
Definition wsRef_bound (w : World) : Prop :=
  match wsRef w with
  | Some id => id < length (sockets w)
  | None => True
  end.

(** ** What [App] renders *)

(** A string state cell used as a condition ([previewUrl ? ...],
    [zoomedImage && ...]): [null] and the empty string are falsy. *)
Definition string_truthy (cell : option string) : bool :=
  match cell with
  | Some s => negb (bool_decide (s = EmptyString))
  | None => false
  end.

(** The parts of the returned JSX that depend on the state: the status
    text, whether the "Initialize Uplink" button is there, the preview
    image, the [disabled] attribute and the label of the action button,
    the zoomed image, the "Waiting for input..." placeholder, the label
    of the scroll toggle, and the log lines, each one what [LogEntry]
    gives for its entry when React comes to render it. *)
Record View : Type := mkView {
  status_text : string;
  connect_button_shown : bool;
  preview_src : option string;
  start_disabled : bool;
  start_label : string;
  zoom_src : option string;
  waiting_shown : bool;
  autoscroll_label : string;
  log_lines : list (Completion Element)
}.

(** The JSX [App] returns in a state.  [App] itself returns in every
    state: a [<LogEntry>] element is only described here, and React
    calls [LogEntry] on it afterwards, which is where a line can fail. *)
Definition render (w : World) : View :=
  {| status_text := if connected w then "ONLINE" else "OFFLINE";
     connect_button_shown := negb (connected w);
     preview_src := if string_truthy (previewUrl w) then previewUrl w else None;
     start_disabled :=
       negb (connected w)
       || negb (match imageFile w with Some _ => true | None => false end)
       || loading w;
     start_label := if loading w then "Analyzing..." else "Engage Agent";
     zoom_src := if string_truthy (zoomedImage w) then zoomedImage w else None;
     waiting_shown := Nat.eqb (length (logs w)) 0 && connected w;
     autoscroll_label :=
       if autoScroll w then "Auto-Scroll: ON" else "Auto-Scroll: OFF";
     log_lines := List.map LogEntry (logs w) |}.

(** What is on the screen: the rendered JSX while the component is
    mounted and every log line renders, and nothing otherwise. *)
Definition displayed (w : World) : option View :=
  if mounted w && renders w then Some (render w) else None.

(** ** More vocabulary for the statements *)

(** Whether a frame's [type] is the given kind. *)
Definition frame_is (kind : string) (f : Frame) : bool :=
  strict_eq_str (prop_value (frame_data f) "type") kind.

(** The URL a [new_image] frame makes the zoomed image, when its [url]
    has a string conversion. *)
Definition frame_image_url (f : Frame) : option string :=
  option_map (String.append "http://localhost:8000")
    (to_string (prop_value (frame_data f) "url")).

(** Whether the message handler runs to its end on a frame: the frame
    is not [null], and if it is a [new_image] its [url] has a string
    conversion. *)
Definition frame_handled (f : Frame) : bool :=
  match frame_data f with
  | JNull => false
  | _ =>
      if frame_is "new_image" f
      then match frame_image_url f with Some _ => true | None => false end
      else true
  end.

(** Whether a frame sets the zoomed image: a [new_image] whose [url] has
    a string conversion. *)
Definition frame_zooms (f : Frame) : bool :=
  frame_is "new_image" f
  && match frame_image_url f with Some _ => true | None => false end.

(** Whether a frame is handled and its entry's line renders. *)
Definition frame_shown (f : Frame) : bool :=
  frame_handled f && entry_renders (frame_entry f).

(** The URL every socket is created with. *)
Definition socket_endpoint : string := "ws://localhost:8000/ws".

(** The two shapes of a message the component sends. *)
Definition sent_shape (msg : JSON) : Prop :=
  msg = JObj ∅ \/ exists reference, msg = start_message reference.

(** The shape of a request the component issues. *)
Definition upload_shape (r : Request) : Prop :=
  exists file, r = upload_request file.

Definition is_click_start (e : Event) : bool :=
  match e with
  | ClickStart => true
  | _ => false
  end.

Definition is_ws_message (e : Event) : bool :=
  match e with
  | WsMessage _ _ _ => true
  | _ => false
  end.

Definition is_upload_settled (e : Event) : bool :=
  match e with
  | UploadSettled _ _ => true
  | _ => false
  end.

(** Every message handed to the network so far, socket by socket. *)
Definition all_sent (w : World) : list JSON :=
  concat (List.map sock_sent (sockets w)).

(** [wsRef.current] is the socket created last, and is null only while
    no socket has been created. *)
Definition wsRef_newest (w : World) : Prop :=
  wsRef w = match sockets w with
            | [] => None
            | _ :: _ => Some (length (sockets w) - 1)
            end.

(** The entry the [catch] block of [startInvestigation] logs. *)
Definition upload_failed_entry (now : string) : LogRecord :=
  mkLog (js_str "error") (js_str "Upload Failed.") now.

(** Whether the rest of [startInvestigation] ends in its [catch] block:
    the upload failed or its body is not JSON, the body is [null], the
    ref is null, or the current socket is still connecting. *)
Definition resume_throws (w : World) (response : option JSON) : bool :=
  match response with
  | None | Some JNull => true
  | Some _ =>
      match wsRef w with
      | None => true
      | Some id =>
          match sockets w !! id with
          | None => true
          | Some s => bool_decide (readyState s = CONNECTING)
          end
      end
  end.

(** Whether the current socket is closing or closed. *)
Definition current_socket_closing (w : World) : bool :=
  match wsRef w with
  | Some id =>
      match sockets w !! id with
      | Some s => bool_decide (readyState s = CLOSING \/ readyState s = CLOSED)
      | None => false
      end
  | None => false
  end.

(** ** Sample states *)

(** A world used to instantiate the statements: one open socket, an
    image selected, a log entry and a zoomed image from an earlier
    session. *)
Definition sample_file : File := mkFile "street.jpg" [].

Definition sample_world : World :=
  {| connected := true;
     logs := [mkLog (js_str "system") (js_str "Investigation complete.") "10:00:00"];
     imageFile := Some sample_file;
     previewUrl := Some "blob:street";
     zoomedImage := Some "http://localhost:8000/static/crop_1.jpg";
     loading := false;
     autoScroll := true;
     wsRef := Some 0;
     sockets := [mkSocket "ws://localhost:8000/ws" OPEN []];
     requests := [];
     mounted := true |}.


(** A log entry whose type is the name of a member of
    [Object.prototype]. *)
Definition inherited_entry : LogRecord :=
  mkLog (js_str "constructor") (js_str "hello") "10:00:00".

(** Two calls of [connect] before any socket opens, then the second
    socket opens: socket 0 is stale, socket 1 current and open. *)
Definition second_socket_open : World :=
  run_events [Mount; ClickConnect; WsOpen 1] initial_world.

(** Two calls of [connect] before any socket opens, then the first
    socket opens and a file is selected: the connected flag is set while
    the current socket, 1, is still connecting. *)
Definition first_socket_open : World :=
  run_events [Mount; ClickConnect; WsOpen 0;
              FileSelect (Some sample_file) "blob:street" "09:59:00"]
    initial_world.

(** A [new_image] frame whose [url] is an object with a [toString]
    key, which has no string conversion. *)
Definition unconvertible_url_frame : Frame :=
  mkFrame 0
    (JObj {[ "type" := JStr "new_image";
             "url" := JObj {[ "toString" := JNum "1" ]} ]})
    "10:06:00".

(** A frame whose content is an object, which React does not accept as
    a child. *)
Definition object_content_frame : Frame :=
  mkFrame 0
    (JObj {[ "type" := JStr "tool_result";
             "content" := JObj {[ "text" := JStr "found it" ]} ]})
    "10:06:00".

End Observer.

(* ===================================================================== *)
(** * The session core: orchestrator, tool registry, crop tool            *)
(* ===================================================================== *)

Module Core.

(** ** Data model (design document, section 3) *)

(** Modelled from the spec: the bounding region [{x, y, w, h}] of a crop
    request (the back end's crop tool is not among the sources).
    Coordinates are rationals: the document gives the rescale as a
    product with a ratio and leaves rounding to pixels open. *)
Record Region : Type := mkRegion { rx : Q; ry : Q; rw : Q; rh : Q }.

(** Modelled from the spec: equality of regions as pixel bounds (the
    back end's image code is not among the sources). *)
Definition Region_eq (a b : Region) : Prop :=
  (rx a == rx b /\ ry a == ry b /\ rw a == rw b /\ rh a == rh b)%Q.

(** Modelled from the spec: "ImageReference: a handle (identifier/path)
    to image bytes plus its pixel dimensions" (the back end's Image Store
    is not among the sources). *)
Record ImageReference : Type := mkImage { img_id : nat; img_w : Q; img_h : Q }.

(** Modelled from the spec: an image has at least one pixel on each axis
    (the back end's Image Store is not among the sources). *)
Definition valid_image (i : ImageReference) : Prop :=
  (1 <= img_w i /\ 1 <= img_h i)%Q.

(** Modelled from the spec: an Image Store entry, an upload ([None]) or a
    crop derived from a region of an earlier image (the back end's Image
    Store is not among the sources). *)
Record StoredImage : Type := mkStored {
  st_ref : ImageReference;
  st_origin : option (nat * Region)
}.

(** Modelled from the spec: a tool argument, "tool-specific, e.g.
    [{region: {x,y,w,h}}] for crop, [{query: string}] for search" (the
    back end's tool code is not among the sources). *)
#[warnings="-register-all"]
Inductive Arg : Type :=
| ANum (q : Q)
| AText (s : string)
| AMap (fields : gmap string Arg).

(** Modelled from the spec: "ToolCallRequest: tool name; argument
    mapping" (the back end's orchestrator is not among the sources). *)
Record ToolCallRequest : Type := mkRequest {
  tool_name : string;
  tool_args : gmap string Arg
}.

(** Modelled from the spec: a ToolResult payload, "text, or a new image
    reference" (the back end's tool code is not among the sources). *)
Inductive Payload : Type :=
| PText (s : string)
| PImage (i : ImageReference).

(** Modelled from the spec: "ToolResult: originating tool name;
    success/failure flag; payload" (the back end's tool code is not
    among the sources). *)
Record ToolResult : Type := mkResult {
  res_tool : string;
  res_ok : bool;
  res_payload : Payload
}.

(** Modelled from the spec: the role of a Turn (the back end's
    orchestrator is not among the sources). *)
Inductive Role : Type := RUser | RModel | RTool.

(** Modelled from the spec: the content of a Turn, "free text, or a
    tool-call request, or a tool-result payload" (the back end's
    orchestrator is not among the sources). *)
Inductive TurnContent : Type :=
| TText (s : string)
| TRequest (r : ToolCallRequest)
| TResult (r : ToolResult).

(** Modelled from the spec: "Turn: one exchange unit in the conversation
    history" (the back end's orchestrator is not among the sources). *)
Record Turn : Type := mkTurn { turn_role : Role; turn_content : TurnContent }.

(** Modelled from the spec: the event kinds of the session stream,
    section 6 (the back end's streamer is not among the sources). *)
Inductive EventKind : Type :=
| system | user | agent_thought | tool_call | tool_result
| new_image | turn_start | error | session_end.

(** Modelled from the spec: the content of a TranscriptEvent, "text or
    structured payload" (the back end's streamer is not among the
    sources). *)
Inductive EventContent : Type :=
| CText (s : string)
| CRequest (r : ToolCallRequest)
| CImage (i : ImageReference).

(** Modelled from the spec: a TranscriptEvent, without its timestamp
    (the back end's streamer is not among the sources). *)
Record TranscriptEvent : Type := mkEvent {
  ev_kind : EventKind;
  ev_content : EventContent
}.

(** Modelled from the spec: the orchestrator's states, section 4.1 (the
    back end's orchestrator is not among the sources). *)
Inductive State : Type :=
| Idle | AwaitingModel | DispatchingTool | Complete | Failed | Aborted.

(** Modelled from the spec: a Session with what its loop acts on: the
    target image and the dimensions of the down-sampled view shown to
    the model, the history, the state, the number of Model Client calls
    made, the reason of a failure, the Image Store and the events
    emitted so far, oldest first (the back end's orchestrator is not
    among the sources). *)
Record Session : Type := mkSession {
  target : ImageReference;
  shown_w : Q;
  shown_h : Q;
  history : list Turn;
  state : State;
  model_calls : nat;
  reason : option string;
  store : list StoredImage;
  transcript : list TranscriptEvent
}.

(** Modelled from the spec: what the Model Client returns, "either text
    or a structured tool request", or a failure (the back end's model
    adapter is not among the sources). *)
Inductive ModelResponse : Type :=
| FreeText (s : string)
| ToolCall (r : ToolCallRequest)
| ModelFailure (e : string).

(** Modelled from the spec: the tools of section 4.2 (the back end's
    Tool Registry is not among the sources). *)
Inductive Tool : Type := CropTool | SearchTool.

(** Modelled from the spec: what a session is configured with: the Tool
    Registry, the maximum turn count, the Model Client ("conversation
    context in, response out"), the recognizer of the final-answer
    marker, the Search Client ("query in, ranked snippets out", [None]
    on error or timeout) and the number of snippets kept (the back end's
    configuration is not among the sources). *)
Record Config : Type := mkConfig {
  registry : gmap string Tool;
  max_turns : nat;
  model : list Turn -> ModelResponse;
  is_final : string -> bool;
  search : string -> option (list string);
  top_n : nat
}.

(** ** Crop tool and coordinate rescaling (section 4.2) *)

(** Modelled from the spec: "true_coord = model_coord * (true_dimension /
    shown_dimension)" (the back end's crop tool is not among the
    sources). *)
Definition rescale (model_coord true_dimension shown_dimension : Q) : Q :=
  (model_coord * (true_dimension / shown_dimension))%Q.

(** Modelled from the spec: the rescale "applied per axis": [x] and [w]
    by the widths, [y] and [h] by the heights (the back end's crop tool
    is not among the sources). *)
Definition rescale_region (r : Region) (true_w true_h view_w view_h : Q) : Region :=
  {| rx := rescale (rx r) true_w view_w;
     ry := rescale (ry r) true_h view_h;
     rw := rescale (rw r) true_w view_w;
     rh := rescale (rh r) true_h view_h |}.

(** Modelled from the spec: clamping a coordinate into [[lo, hi]] (the
    back end's crop tool is not among the sources). *)
Definition clamp (lo hi v : Q) : Q := Qmax lo (Qmin hi v).

(** Modelled from the spec: one axis "clamped to the image bounds (never
    request a crop that exceeds source dimensions; clamp
    negative/degenerate regions to a minimum 1-pixel extent)": the near
    edge is brought into the image leaving room for one pixel, the far
    edge between one pixel after it and the image's far side; the result
    is the new start and extent (the back end's crop tool is not among
    the sources). *)
Definition clamp_axis (start extent dimension : Q) : Q * Q :=
  let near := clamp 0 (dimension - 1) start in
  let far := clamp (near + 1) dimension (start + extent) in
  (near, (far - near)%Q).

(** Modelled from the spec: both axes clamped to the source image (the
    back end's crop tool is not among the sources). *)
Definition clamp_region (r : Region) (source : ImageReference) : Region :=
  let horizontal := clamp_axis (rx r) (rw r) (img_w source) in
  let vertical := clamp_axis (ry r) (rh r) (img_h source) in
  {| rx := fst horizontal; ry := fst vertical;
     rw := snd horizontal; rh := snd vertical |}.

(** Modelled from the spec: a rectangle lying inside an image with at
    least one pixel on each axis (the back end's crop tool is not among
    the sources). *)
Definition within (r : Region) (source : ImageReference) : Prop :=
  (0 <= rx r /\ 1 <= rw r /\ rx r + rw r <= img_w source /\
   0 <= ry r /\ 1 <= rh r /\ ry r + rh r <= img_h source)%Q.

(** Modelled from the spec: the pixel region a crop request executes on:
    rescaled from the model's view to the source's true dimensions,
    "then clamped" (the back end's crop tool is not among the sources). *)
Definition executed_region (r : Region) (s : Session) : Region :=
  clamp_region
    (rescale_region r (img_w (target s)) (img_h (target s)) (shown_w s) (shown_h s))
    (target s).

(** Modelled from the spec: argument validation of the crop tool,
    "required fields are present and of the expected shape"; extra
    fields are ignored (the back end's crop tool is not among the
    sources). *)
Definition parse_region (args : gmap string Arg) : option Region :=
  match args !! "region" with
  | Some (AMap fields) =>
      match fields !! "x", fields !! "y", fields !! "w", fields !! "h" with
      | Some (ANum x), Some (ANum y), Some (ANum w), Some (ANum h) =>
          Some (mkRegion x y w h)
      | _, _, _, _ => None
      end
  | _ => None
  end.

(** Modelled from the spec: a failure ToolResult carrying an explanation
    (the back end's tool code is not among the sources). *)
Definition failure (name explanation : string) : ToolResult :=
  mkResult name false (PText explanation).

(** Modelled from the spec: the Zoom/Crop tool: validate, rescale, clamp,
    and derive a new ImageReference with its own dimensions, appended to
    the Image Store; the source is left as it is (the back end's crop
    tool is not among the sources). *)
Definition crop (name : string) (args : gmap string Arg) (s : Session)
  : ToolResult * list StoredImage :=
  match parse_region args with
  | None => (failure name "crop: malformed arguments", store s)
  | Some r =>
      let pixels := executed_region r s in
      let derived := mkImage (length (store s)) (rw pixels) (rh pixels) in
      (mkResult name true (PImage derived),
       (store s ++ [mkStored derived (Some (img_id (target s), pixels))])%list)
  end.

(** Modelled from the spec: the separator between the snippets of a
    search result (the back end's search tool is not among the sources). *)
Definition newline : string := String (Ascii.ascii_of_nat 10) EmptyString.

(** Modelled from the spec: the Search/Verify tool: "returns the top-N
    snippets concatenated as text, or a failure payload if the external
    call errors or times out" (the back end's search tool is not among
    the sources). *)
Definition search_tool (cfg : Config) (name : string) (args : gmap string Arg)
  : ToolResult :=
  match args !! "query" with
  | Some (AText query) =>
      match search cfg query with
      | Some snippets =>
          mkResult name true (PText (String.concat newline (take (top_n cfg) snippets)))
      | None => failure name "search: the search service failed or timed out"
      end
  | _ => failure name "search: malformed arguments"
  end.

(** Modelled from the spec: the Tool Registry's contract, "execute(name,
    args) -> ToolResult"; an unknown name gives a failure result (the
    back end's Tool Registry is not among the sources). *)
Definition execute (cfg : Config) (req : ToolCallRequest) (s : Session)
  : ToolResult * list StoredImage :=
  match registry cfg !! tool_name req with
  | None => (failure (tool_name req) ("unknown tool: " ++ tool_name req), store s)
  | Some CropTool => crop (tool_name req) (tool_args req) s
  | Some SearchTool => (search_tool cfg (tool_name req) (tool_args req), store s)
  end.

(** ** Orchestrator (section 4.1) *)

(** Modelled from the spec: the events that follow a tool execution: a
    [tool_result], and for a derived image also a [new_image], after it
    (the back end's orchestrator is not among the sources). *)
Definition result_events (r : ToolResult) : list TranscriptEvent :=
  match res_payload r with
  | PText t => [mkEvent tool_result (CText t)]
  | PImage i => [mkEvent tool_result (CImage i); mkEvent new_image (CImage i)]
  end.

(** Modelled from the spec: state [DispatchingTool]: execute the request,
    "append a tool turn, emit tool_result, return to AwaitingModel",
    whatever the outcome (the back end's orchestrator is not among the
    sources). *)
Definition dispatch (cfg : Config) (req : ToolCallRequest) (s : Session) : Session :=
  let outcome := execute cfg req s in
  {| target := target s; shown_w := shown_w s; shown_h := shown_h s;
     history := history s ++ [mkTurn RTool (TResult (fst outcome))];
     state := AwaitingModel;
     model_calls := model_calls s;
     reason := reason s;
     store := snd outcome;
     transcript := transcript s ++ result_events (fst outcome) |}.

(** Modelled from the spec: the transition to [Failed], with its reason
    and one [session_end] event (the back end's orchestrator is not
    among the sources). *)
Definition fail (why : string) (s : Session) : Session :=
  {| target := target s; shown_w := shown_w s; shown_h := shown_h s;
     history := history s;
     state := Failed;
     model_calls := model_calls s;
     reason := Some why;
     store := store s;
     transcript := transcript s ++ [mkEvent session_end (CText why)] |}.

(** Modelled from the spec: the transition to [Complete], with one
    [session_end] event carrying the final summary (the back end's
    orchestrator is not among the sources). *)
Definition complete (summary : string) (s : Session) : Session :=
  {| target := target s; shown_w := shown_w s; shown_h := shown_h s;
     history := history s;
     state := Complete;
     model_calls := model_calls s;
     reason := reason s;
     store := store s;
     transcript := transcript s ++ [mkEvent session_end (CText summary)] |}.

(** Modelled from the spec: a model turn appended to the history with
    its event, the call counted, and the next state (the back end's
    orchestrator is not among the sources). *)
Definition record_model_turn (content : TurnContent) (e : TranscriptEvent)
  (next : State) (s : Session) : Session :=
  {| target := target s; shown_w := shown_w s; shown_h := shown_h s;
     history := history s ++ [mkTurn RModel content];
     state := next;
     model_calls := S (model_calls s);
     reason := reason s;
     store := store s;
     transcript := transcript s ++ [e] |}.

(** Modelled from the spec: state [AwaitingModel]: one call to the Model
    Client and the transition its response selects (the back end's
    orchestrator is not among the sources). *)
Definition model_turn (cfg : Config) (s : Session) : Session :=
  match model cfg (history s) with
  | FreeText text =>
      let s' := record_model_turn (TText text) (mkEvent agent_thought (CText text))
                  AwaitingModel s in
      if is_final cfg text then complete text s' else s'
  | ToolCall req =>
      dispatch cfg req
        (record_model_turn (TRequest req) (mkEvent tool_call (CRequest req))
           DispatchingTool s)
  | ModelFailure e =>
      fail e
        {| target := target s; shown_w := shown_w s; shown_h := shown_h s;
           history := history s; state := state s;
           model_calls := S (model_calls s); reason := reason s;
           store := store s; transcript := transcript s |}
  end.

(** Modelled from the spec: the reason given when the turn budget is
    used up (the back end's orchestrator is not among the sources). *)
Definition turn_limit_exceeded : string := "turn limit exceeded".

(** Modelled from the spec: the turn loop under the turn-budget guard:
    while the session awaits the model, a model turn is taken if the
    budget allows one, and the session fails otherwise (the back end's
    orchestrator is not among the sources). *)
Fixpoint turn_loop (cfg : Config) (budget : nat) (s : Session) : Session :=
  match state s with
  | AwaitingModel =>
      match budget with
      | O => fail turn_limit_exceeded s
      | S budget' => turn_loop cfg budget' (model_turn cfg s)
      end
  | _ => s
  end.

(** Modelled from the spec: whether the Image Store knows a reference
    (the back end's Image Store is not among the sources). *)
Definition known_image (i : ImageReference) (images : list StoredImage) : bool :=
  existsb (fun e => Nat.eqb (img_id (st_ref e)) (img_id i)) images.

(** Modelled from the spec: leaving [Idle]: the initial user turn is
    appended and the session awaits the model; an unknown image fails
    the session "with no turns attempted" (the back end's orchestrator
    is not among the sources). *)
Definition start (prompt : string) (s : Session) : Session :=
  match state s with
  | Idle =>
      if known_image (target s) (store s) then
        {| target := target s; shown_w := shown_w s; shown_h := shown_h s;
           history := history s ++ [mkTurn RUser (TText prompt)];
           state := AwaitingModel;
           model_calls := model_calls s; reason := reason s;
           store := store s; transcript := transcript s |}
      else fail "image reference invalid" s
  | _ => s
  end.

(** Modelled from the spec: a new session on an uploaded image (the back
    end's orchestrator is not among the sources). *)
Definition new_session (image : ImageReference) (view_w view_h : Q)
  (images : list StoredImage) : Session :=
  {| target := image; shown_w := view_w; shown_h := view_h;
     history := []; state := Idle; model_calls := 0; reason := None;
     store := images; transcript := [] |}.

(** Modelled from the spec: one investigation, from [Idle] to a terminal
    state (the back end's orchestrator is not among the sources). *)
Definition run_session (cfg : Config) (prompt : string) (s : Session) : Session :=
  turn_loop cfg (max_turns cfg) (start prompt s).

(** Modelled from the spec: the session after [k] model turns of the
    loop (the back end's orchestrator is not among the sources). *)
Definition after_turns (cfg : Config) (k : nat) (s : Session) : Session :=
  Nat.iter k (model_turn cfg) s.

(** ** Vocabulary for the statements *)

(** Modelled from the spec: a Model Client that "never produces a
    recognized final-answer marker and never errors" (the back end's
    model adapter is not among the sources). *)
Definition keeps_going (cfg : Config) : Prop :=
  forall context,
    match model cfg context with
    | FreeText text => is_final cfg text = false
    | ToolCall _ => True
    | ModelFailure _ => False
    end.

(** Modelled from the spec: the source of the worked example, "truly
    stored at 2000x2000" (the back end's Image Store is not among the
    sources). *)
Definition sample_source : ImageReference := mkImage 0 2000 2000.

(** Modelled from the spec: a session on that source, shown to the model
    at 500x500 (the back end's orchestrator is not among the sources). *)
Definition sample_session : Session :=
  new_session sample_source 500 500 [mkStored sample_source None].

(** Modelled from the spec: a region reaching past the 500x500 view (the
    back end's crop tool is not among the sources). *)
Definition oversized_region : Region := mkRegion 0 0 600 600.

(** Modelled from the spec: a registry with the two tools of section
    4.2 (the back end's Tool Registry is not among the sources). *)
Definition sample_registry : gmap string Tool :=
  {[ "crop" := CropTool; "search" := SearchTool ]}.

(** Modelled from the spec: a configuration with a turn limit of 10
    whose model only ever thinks aloud (the back end's configuration is
    not among the sources). *)
Definition sample_config : Config :=
  {| registry := sample_registry;
     max_turns := 10;
     model := fun _ => FreeText "The skyline suggests a coastal city.";
     is_final := fun _ => false;
     search := fun _ => None;
     top_n := 3 |}.

(** Modelled from the spec: a crop request for a region (the back end's
    orchestrator is not among the sources). *)
Definition crop_request (r : Region) : ToolCallRequest :=
  mkRequest "crop"
    {[ "region" := AMap {[ "x" := ANum (rx r); "y" := ANum (ry r);
                           "w" := ANum (rw r); "h" := ANum (rh r) ]} ]}.

End Core.

(* ===================================================================== *)
(** * Properties of the observer                                          *)
(* ===================================================================== *)

Module ObserverProps.
Import Observer.
Local Open Scope list_scope.

(** Unfolds the handlers down to the state they return. *)
Ltac unfold_handlers :=
  unfold handler, run, connect, ws_onopen, ws_onmessage, ws_onclose,
    ws_onerror, handleFileSelect, startInvestigation, startInvestigation_resume,
    unmount_tree, unmount, ws_close, ws_send, set_readyState, try_catch, bind,
    get, modify, JSON_parse, await_json, prop, ToString, ret, throw.

(** Case analysis along [startInvestigation_resume]: the response, the
    ref, the socket it names and that socket's [readyState]; [tac]
    closes the cases that end early. *)
Ltac resume_cases w response tac :=
  unfold run, startInvestigation_resume, try_catch, bind, await_json, ret,
    throw, prop, ws_send;
  destruct response as [[]|]; simpl; try tac;
  destruct (wsRef w) as [?id|]; simpl; try tac;
  match goal with
  | |- context [sockets w !! ?i] =>
      destruct (sockets w !! i) as [?sock|]; simpl; try tac
  end;
  match goal with
  | |- context [readyState ?sk] => destruct (readyState sk) eqn:?; simpl; try tac
  end.

(** ** [connect] *)

(** C10: [connect] called while the current socket is [OPEN] returns at
    once: no socket is created and nothing of the observer's state
    changes, the log list and the connected flag included. *)
Theorem connect_open_idempotent (w : World) (id : nat) (s : Socket) :
  wsRef w = Some id ->
  sockets w !! id = Some s ->
  readyState s = OPEN ->
  connect w = (Normal tt, w).
Proof.
  intros Href Hsock Hopen.
  unfold connect, bind, get, current_socket_open.
  rewrite Href, Hsock, Hopen.
  reflexivity.
Qed.

Lemma connect_open_idempotent_witness :
  connect sample_world = (Normal tt, sample_world).
Proof.
  apply (connect_open_idempotent sample_world 0
           (mkSocket "ws://localhost:8000/ws" OPEN [])); reflexivity.
Defined.

(** ** [startInvestigation] *)

Lemma strict_eq_str_true (v : JSValue) (literal : string) :
  strict_eq_str v literal = true <-> v = js_str literal.
Proof.
  unfold strict_eq_str, js_str. split.
  - destruct v as [|[]| |]; try discriminate.
    intros H. apply bool_decide_eq_true in H. by subst.
  - intros ->. by apply bool_decide_eq_true.
Qed.

Lemma strict_eq_str_false (v : JSValue) (literal : string) :
  strict_eq_str v literal = false <-> v <> js_str literal.
Proof.
  rewrite <- not_true_iff_false, strict_eq_str_true. reflexivity.
Qed.

(** C7: when an investigation starts, the log list is emptied and the
    zoomed image cleared before the upload request is issued: the
    request is issued from a state whose log list is empty and whose
    zoomed image is null, and that is still so once it has been issued. *)
Theorem startInvestigation_discards_prior (w : World) (file : File) :
  imageFile w = Some file ->
  connected w = true ->
  let cleared := run (setLoading true ;; setLogs [] ;; setZoomedImage None) w in
  logs cleared = [] /\
  zoomedImage cleared = None /\
  requests cleared = requests w /\
  startInvestigation w =
    fetch "http://localhost:8000/upload" "POST" [("file", file)] cleared /\
  logs (run startInvestigation w) = [] /\
  zoomedImage (run startInvestigation w) = None /\
  requests (run startInvestigation w) = requests w ++ [upload_request file].
Proof.
  intros Hfile Hconn. destruct w; simpl in *. subst.
  repeat split.
Qed.

Lemma startInvestigation_discards_prior_witness :
  logs (run startInvestigation sample_world) = [] /\
  zoomedImage (run startInvestigation sample_world) = None.
Proof.
  pose proof (startInvestigation_discards_prior sample_world sample_file
                eq_refl eq_refl) as H.
  simpl in H. destruct H as (_ & _ & _ & _ & Hlogs & Hzoom & _).
  split; assumption.
Defined.

(** C5: a session is started in two steps.  With an image selected and
    the connected flag set, [startInvestigation] issues one POST of the
    image to the upload URL and sends nothing on any socket; when the
    response is a JSON object with a [file_path] field and the current
    socket is open, exactly one message, [{file_path: <that field>}], is
    sent on it and nothing else changes: the field goes out as
    [JSON.stringify] writes it, which for a path, a string, is the path
    itself.  With no image selected or the connected flag unset,
    [startInvestigation] does nothing, and on a socket that is not open
    no message is sent. *)
Theorem session_start_protocol (w : World) :
  ((imageFile w = None \/ connected w = false) ->
   startInvestigation w = (Normal tt, w)) /\
  (forall file,
     imageFile w = Some file -> connected w = true ->
     requests (run startInvestigation w) = requests w ++ [upload_request file] /\
     sockets (run startInvestigation w) = sockets w) /\
  (forall own reference id s now,
     own !! "file_path" = Some reference ->
     wsRef w = Some id -> sockets w !! id = Some s -> readyState s = OPEN ->
     startInvestigation_resume (Some (JObj own)) now w =
       (Normal tt,
        with_sockets
          (<[id := transmitted (start_message (json_serialize reference)) s]> (sockets w))
          w)) /\
  (forall own path id s now,
     own !! "file_path" = Some (JStr path) ->
     wsRef w = Some id -> sockets w !! id = Some s -> readyState s = OPEN ->
     startInvestigation_resume (Some (JObj own)) now w =
       (Normal tt,
        with_sockets (<[id := transmitted (start_message (JStr path)) s]> (sockets w)) w)) /\
  (forall response now,
     current_socket_open w = false ->
     sockets (run (startInvestigation_resume response now) w) = sockets w).
Proof.
  assert (Hsend : forall own reference id s now,
            own !! "file_path" = Some reference ->
            wsRef w = Some id -> sockets w !! id = Some s -> readyState s = OPEN ->
            startInvestigation_resume (Some (JObj own)) now w =
              (Normal tt,
               with_sockets
                 (<[id := transmitted (start_message (json_serialize reference)) s]>
                    (sockets w)) w)).
  { intros own reference id s now Hfield Href Hsock Hopen.
    unfold startInvestigation_resume, try_catch, bind, await_json, ret, prop,
      object_get.
    rewrite Hfield. simpl. unfold ws_send.
    rewrite Href, Hsock, Hopen.
    unfold transmitted, start_message. by rewrite Hopen. }
  split; [|split; [|split; [|split]]].
  - intros [Hnone | Hoff]; unfold startInvestigation, bind, get.
    + by rewrite Hnone.
    + rewrite Hoff. by destruct (imageFile w).
  - intros file Hfile Hconn. destruct w; simpl in *; subst. by split.
  - exact Hsend.
  - intros own path id s now Hfield Href Hsock Hopen.
    exact (Hsend own (JStr path) id s now Hfield Href Hsock Hopen).
  - intros response now Hclosed.
    unfold current_socket_open in Hclosed.
    resume_cases w response ltac:(reflexivity);
      by apply bool_decide_eq_false in Hclosed.
Qed.

Lemma session_start_protocol_witness :
  requests (run startInvestigation sample_world) = [upload_request sample_file] /\
  sockets (run (startInvestigation_resume
                  (Some (JObj {[ "file_path" := JStr "uploads/street.jpg" ]}))
                  "10:05:00") sample_world)
  = [mkSocket "ws://localhost:8000/ws" OPEN
       [start_message (JStr "uploads/street.jpg")]].
Proof.
  destruct (session_start_protocol sample_world) as (_ & Hpost & _ & Hsend & _).
  split.
  - apply (Hpost sample_file); reflexivity.
  - unfold run. rewrite (Hsend {[ "file_path" := JStr "uploads/street.jpg" ]}
               "uploads/street.jpg" 0
               (mkSocket "ws://localhost:8000/ws" OPEN []) "10:05:00");
      reflexivity.
Defined.

(** A number that is not finite does not go out as it came in: a
    [file_path] of [1e400], parsed as [Infinity], is sent as [null]. *)
Lemma infinite_file_path_sent_as_null :
  sockets (run (startInvestigation_resume
                  (Some (JObj {[ "file_path" := JNum "Infinity" ]})) "10:05:00")
             sample_world)
  = [mkSocket "ws://localhost:8000/ws" OPEN [start_message JNull]].
Proof. reflexivity. Qed.

(** A response object without a [file_path] field is not checked for:
    on an open socket the message sent is then the empty object. *)
Lemma resume_without_file_path (w : World) (own : gmap string JSON)
  (id : nat) (s : Socket) (now : string) :
  own !! "file_path" = None ->
  wsRef w = Some id -> sockets w !! id = Some s -> readyState s = OPEN ->
  startInvestigation_resume (Some (JObj own)) now w =
    (Normal tt, with_sockets (<[id := transmitted (JObj ∅) s]> (sockets w)) w).
Proof.
  intros Hfield Href Hsock Hopen.
  unfold startInvestigation_resume, try_catch, bind, await_json, ret, prop,
    object_get.
  rewrite Hfield. simpl. unfold ws_send.
  rewrite Href, Hsock, Hopen.
  unfold transmitted. by rewrite Hopen.
Qed.

(** ** Rendering again *)

Lemma renders_app (w w' : World) (extra : list LogRecord) :
  logs w' = logs w ++ extra ->
  renders w' = renders w && forallb entry_renders extra.
Proof. unfold renders. intros ->. apply forallb_app. Qed.

(** Nothing happens when the state after the handler renders whenever
    the state before it did. *)
Lemma rerender_calm (before after : World) :
  (renders before = true -> renders after = true) ->
  rerender before after = after.
Proof.
  unfold rerender. intros Hkeeps.
  destruct (mounted after), (renders before); simpl; try done.
  by rewrite Hkeeps.
Qed.

Lemma rerender_crash (before after : World) :
  mounted after = true -> renders before = true -> renders after = false ->
  rerender before after = run unmount_tree after.
Proof. unfold rerender. by intros -> -> ->. Qed.

(** Taking the component out of the tree changes the mounted flag and
    the [readyState] of the current socket, and nothing else. *)
Lemma unmount_tree_cells (w : World) :
  mounted (run unmount_tree w) = false /\
  logs (run unmount_tree w) = logs w /\
  connected (run unmount_tree w) = connected w /\
  loading (run unmount_tree w) = loading w /\
  zoomedImage (run unmount_tree w) = zoomedImage w /\
  imageFile (run unmount_tree w) = imageFile w /\
  previewUrl (run unmount_tree w) = previewUrl w /\
  autoScroll (run unmount_tree w) = autoScroll w /\
  wsRef (run unmount_tree w) = wsRef w /\
  requests (run unmount_tree w) = requests w.
Proof.
  unfold_handlers. destruct (wsRef w) as [id|] eqn:Href; simpl; [|done].
  rewrite Href. destruct (sockets w !! id) as [s|] eqn:Hs; simpl; [|done].
  destruct (readyState s); simpl; rewrite ?Hs; done.
Qed.

Lemma unmount_tree_sockets (w : World) :
  sockets (run unmount_tree w) = sockets w \/
  exists id s,
    wsRef w = Some id /\ sockets w !! id = Some s /\
    sockets (run unmount_tree w) =
      <[id := mkSocket (sock_url s) CLOSING (sock_sent s)]> (sockets w).
Proof.
  unfold_handlers. destruct (wsRef w) as [id|] eqn:Href; simpl; [|by left].
  rewrite Href. destruct (sockets w !! id) as [s|] eqn:Hs; simpl; [|by left].
  destruct (readyState s); simpl; rewrite ?Hs; simpl;
    first [ by left | right; by exists id, s ].
Qed.

(** Rendering again leaves the cells, the ref and the requests as the
    handler left them. *)
Lemma rerender_cells (before after : World) :
  logs (rerender before after) = logs after /\
  connected (rerender before after) = connected after /\
  loading (rerender before after) = loading after /\
  zoomedImage (rerender before after) = zoomedImage after /\
  imageFile (rerender before after) = imageFile after /\
  previewUrl (rerender before after) = previewUrl after /\
  autoScroll (rerender before after) = autoScroll after /\
  wsRef (rerender before after) = wsRef after /\
  requests (rerender before after) = requests after.
Proof.
  unfold rerender. case_match; [|done].
  destruct (unmount_tree_cells after) as (_ & Hcells). exact Hcells.
Qed.

Lemma rerender_sockets (before after : World) :
  sockets (rerender before after) = sockets after \/
  exists id s,
    wsRef after = Some id /\ sockets after !! id = Some s /\
    sockets (rerender before after) =
      <[id := mkSocket (sock_url s) CLOSING (sock_sent s)]> (sockets after).
Proof.
  unfold rerender. case_match; [apply unmount_tree_sockets | by left].
Qed.

(** The entries the component writes itself render. *)
Lemma own_entry_renders (type content now : string) :
  entry_renders (mkLog (js_str type) (js_str content) now) = true.
Proof.
  unfold entry_renders, LogEntry; simpl.
  unfold object_get. destruct (styles !! type) as [j|] eqn:Hown.
  - apply elem_of_list_to_map_2 in Hown.
    repeat (apply elem_of_cons in Hown as [Hown|Hown];
            [by inversion Hown|]).
    by apply elem_of_nil in Hown.
  - unfold object_prototype_get. by repeat case_bool_decide.
Qed.

(** Only a stream message can leave a state that does not render: the
    other handlers empty the log list or add an entry of their own. *)
Lemma handler_calm (w : World) (e : Event) :
  is_ws_message e = false ->
  renders w = true ->
  renders (run (handler e) w) = true.
Proof.
  intros Hkind Hw.
  assert (Hsnoc : forall w' type content now,
            logs w' = logs w ++ [mkLog (js_str type) (js_str content) now] ->
            renders w' = true).
  { intros w' type content now Hlogs.
    rewrite (renders_app w w' _ Hlogs), Hw. simpl.
    by rewrite own_entry_renders. }
  destruct e; try discriminate; unfold_handlers; simpl;
    repeat case_match; simplify_eq/=;
    first [ exact Hw | reflexivity | by eapply Hsnoc ].
Qed.

Lemma step_calm (w : World) (e : Event) :
  is_ws_message e = false ->
  step w e = run (handler e) w.
Proof.
  intros Hkind. unfold step. apply rerender_calm. by apply handler_calm.
Qed.

(** ** [ws.onmessage] *)

(** What the handler does on a frame it handles to the end, as one
    equation. *)
Lemma ws_onmessage_frame (f : Frame) (w : World) :
  frame_handled f = true ->
  ws_onmessage (Some (frame_data f)) (frame_time f) w =
    (Normal tt,
     with_logs (logs w ++ [frame_entry f])
       (if frame_is "new_image" f then with_zoomedImage (frame_image_url f) w
        else if frame_is "session_end" f then with_loading false w
        else w)).
Proof.
  destruct f as [id data now].
  unfold frame_handled, frame_image_url, frame_is, frame_entry; simpl.
  unfold ws_onmessage, JSON_parse, ToString, bind, ret, throw; simpl.
  destruct data as [| b | repr | text | items | own]; simpl;
    try discriminate; try (intros _; reflexivity).
  destruct (strict_eq_str (object_get own "type") "new_image").
  - destruct (to_string (object_get own "url")); simpl; intros;
      (reflexivity || discriminate).
  - destruct (strict_eq_str (object_get own "type") "session_end");
      intros; reflexivity.
Qed.

(** On any other frame the handler throws before it has changed
    anything: a frame that is not JSON, [null], or a [new_image] whose
    [url] has no string conversion. *)
Lemma ws_onmessage_unhandled (f : Frame) (w : World) :
  frame_handled f = false ->
  ws_onmessage (Some (frame_data f)) (frame_time f) w = (Thrown "TypeError", w).
Proof.
  destruct f as [id data now].
  unfold frame_handled, frame_image_url, frame_is; simpl.
  unfold ws_onmessage, JSON_parse, ToString, bind, ret, throw; simpl.
  destruct data as [| b | repr | text | items | own]; simpl;
    try discriminate; try (intros _; reflexivity).
  destruct (strict_eq_str (object_get own "type") "new_image"); [|discriminate].
  destruct (to_string (object_get own "url")); simpl; intros;
    (reflexivity || discriminate).
Qed.

Lemma ws_onmessage_malformed (now : string) (w : World) :
  ws_onmessage None now w = (Thrown "SyntaxError", w) /\
  ws_onmessage (Some JNull) now w = (Thrown "TypeError", w).
Proof. by split. Qed.

(** What a frame does to a mounted component that renders: handled to
    the end and with a line that renders, the component shows the state
    the handler leaves. *)
Lemma step_frame_shown (w : World) (f : Frame) :
  frame_shown f = true ->
  mounted w = true ->
  renders w = true ->
  step w (frame_event f) = run (ws_onmessage (Some (frame_data f)) (frame_time f)) w /\
  mounted (step w (frame_event f)) = true /\
  renders (step w (frame_event f)) = true /\
  displayed (step w (frame_event f)) = Some (render (step w (frame_event f))).
Proof.
  intros Hshown Hmounted Hrenders.
  apply andb_true_iff in Hshown as [Hhandled Hentry].
  set (w1 := run (ws_onmessage (Some (frame_data f)) (frame_time f)) w).
  assert (Hlogs : logs w1 = logs w ++ [frame_entry f]).
  { unfold w1, run. rewrite (ws_onmessage_frame f w Hhandled). simpl.
    by repeat case_match. }
  assert (Hmounted1 : mounted w1 = true).
  { unfold w1, run. rewrite (ws_onmessage_frame f w Hhandled). simpl.
    by repeat case_match. }
  assert (Hrenders1 : renders w1 = true).
  { rewrite (renders_app w w1 _ Hlogs), Hrenders. simpl. by rewrite Hentry. }
  assert (Hstep : step w (frame_event f) = w1).
  { unfold step, frame_event, handler. fold w1. by apply rerender_calm. }
  rewrite Hstep. repeat split; try assumption.
  unfold displayed. by rewrite Hmounted1, Hrenders1.
Qed.

(** C6: the message handler dispatches on the event kind.  A [new_image]
    event with [url] a path sets the zoomed image to the server origin
    followed by the path and appends one [tool_result] entry, and the
    mounted component then displays the image with that source; a
    [session_end] event clears the loading flag and appends one [system]
    entry with the event's content, and the action button shows "Engage
    Agent" again; any other kind appends one entry of that kind with its
    content, shown as one more log line; nothing else changes. *)
Theorem onmessage_dispatch (w : World) (data : JSON) (now : string) :
  data <> JNull ->
  let kind := prop_value data "type" in
  let content := prop_value data "content" in
  (kind = js_str "new_image" ->
   forall path, prop_value data "url" = js_str path ->
     let w' := with_logs (logs w ++ [mkLog (js_str "tool_result")
                                       (js_str "Received High-Res Crop.") now])
                 (with_zoomedImage (Some ("http://localhost:8000" ++ path)%string) w) in
     ws_onmessage (Some data) now w = (Normal tt, w') /\
     (mounted w = true -> renders w = true ->
      forall id,
        displayed (step w (WsMessage id (Some data) now)) = Some (render w') /\
        zoom_src (render w') = Some ("http://localhost:8000" ++ path)%string)) /\
  (kind = js_str "session_end" ->
     let w' := with_logs (logs w ++ [mkLog (js_str "system") content now])
                 (with_loading false w) in
     ws_onmessage (Some data) now w = (Normal tt, w') /\
     (mounted w = true -> renders w = true -> child_valid content = true ->
      forall id,
        displayed (step w (WsMessage id (Some data) now)) = Some (render w') /\
        start_label (render w') = "Engage Agent")) /\
  (kind <> js_str "new_image" -> kind <> js_str "session_end" ->
     let w' := with_logs (logs w ++ [mkLog kind content now]) w in
     ws_onmessage (Some data) now w = (Normal tt, w') /\
     (mounted w = true -> renders w = true ->
      entry_renders (mkLog kind content now) = true ->
      forall id,
        displayed (step w (WsMessage id (Some data) now)) = Some (render w') /\
        log_lines (render w') =
          log_lines (render w) ++ [LogEntry (mkLog kind content now)])).
Proof.
  intros Hnull kind content.
  assert (Hshow : forall id,
            frame_shown (mkFrame id data now) = true ->
            mounted w = true -> renders w = true ->
            displayed (step w (WsMessage id (Some data) now)) =
              Some (render (run (ws_onmessage (Some data) now) w))).
  { intros id Hshown Hm Hr.
    destruct (step_frame_shown w (mkFrame id data now) Hshown Hm Hr)
      as (Hstep & _ & _ & Hdisp).
    unfold frame_event in *; simpl in *. by rewrite Hdisp, Hstep. }
  split; [|split].
  - intros Hkind path Hurl w'.
    assert (Hhandled : forall id, frame_handled (mkFrame id data now) = true).
    { intros id. unfold frame_handled, frame_image_url, frame_is; simpl.
      fold kind. rewrite Hkind, Hurl. by destruct data. }
    assert (Heq : ws_onmessage (Some data) now w = (Normal tt, w')).
    { pose proof (ws_onmessage_frame (mkFrame 0 data now) w (Hhandled 0)) as H.
      unfold frame_is, frame_image_url, frame_entry in H; simpl in H.
      fold kind in H. rewrite Hkind, Hurl in H. exact H. }
    split; [exact Heq|].
    intros Hm Hr id. split.
    + rewrite (Hshow id); [unfold run; by rewrite Heq | | exact Hm | exact Hr].
      unfold frame_shown. rewrite Hhandled. simpl.
      unfold frame_entry, frame_is; simpl. fold kind. rewrite Hkind. simpl.
      apply own_entry_renders.
    + reflexivity.
  - intros Hkind w'.
    assert (Hhandled : forall id, frame_handled (mkFrame id data now) = true).
    { intros id. unfold frame_handled, frame_is; simpl.
      fold kind. rewrite Hkind. by destruct data. }
    assert (Heq : ws_onmessage (Some data) now w = (Normal tt, w')).
    { pose proof (ws_onmessage_frame (mkFrame 0 data now) w (Hhandled 0)) as H.
      unfold frame_is, frame_entry in H; simpl in H.
      fold kind content in H. rewrite Hkind in H. exact H. }
    split; [exact Heq|].
    intros Hm Hr Hchild id. split.
    + rewrite (Hshow id); [unfold run; by rewrite Heq | | exact Hm | exact Hr].
      unfold frame_shown. rewrite Hhandled. simpl.
      unfold frame_entry, frame_is; simpl. fold kind content. rewrite Hkind. simpl.
      unfold entry_renders, LogEntry; simpl. exact Hchild.
    + reflexivity.
  - intros Hnew Hend w'.
    apply strict_eq_str_false in Hnew. apply strict_eq_str_false in Hend.
    assert (Hhandled : forall id, frame_handled (mkFrame id data now) = true).
    { intros id. unfold frame_handled, frame_is; simpl.
      fold kind. rewrite Hnew. by destruct data. }
    assert (Heq : ws_onmessage (Some data) now w = (Normal tt, w')).
    { pose proof (ws_onmessage_frame (mkFrame 0 data now) w (Hhandled 0)) as H.
      unfold frame_is, frame_entry in H; simpl in H.
      fold kind content in H. rewrite Hnew, Hend in H. exact H. }
    split; [exact Heq|].
    intros Hm Hr Hentry id. split.
    + rewrite (Hshow id); [unfold run; by rewrite Heq | | exact Hm | exact Hr].
      unfold frame_shown. rewrite Hhandled. simpl.
      unfold frame_entry, frame_is; simpl. fold kind content.
      by rewrite Hnew, Hend.
    + unfold render, w'; simpl. by rewrite map_app.
Qed.

Lemma onmessage_dispatch_witness :
  zoom_src <$>
    displayed (step sample_world
                 (WsMessage 0
                    (Some (JObj {[ "type" := JStr "new_image";
                                   "url" := JStr "/static/crop_2.jpg" ]}))
                    "10:06:00"))
  = Some (Some "http://localhost:8000/static/crop_2.jpg").
Proof.
  destruct (onmessage_dispatch sample_world
              (JObj {[ "type" := JStr "new_image"; "url" := JStr "/static/crop_2.jpg" ]})
              "10:06:00") as (Himage & _ & _); [discriminate|].
  destruct (Himage eq_refl "/static/crop_2.jpg" eq_refl) as (_ & Hshown).
  destruct (Hshown eq_refl eq_refl 0) as (Hdisplayed & _).
  rewrite Hdisplayed. reflexivity.
Defined.

(** ** The log list *)

Lemma set_readyState_logs (id : nat) (st : ReadyState) (w : World) :
  logs (run (set_readyState id st) w) = logs w.
Proof.
  unfold run, set_readyState, modify; simpl.
  by destruct (sockets w !! id).
Qed.








(** ** The socket table *)

Lemma handler_sockets (w : World) (e : Event) :
  (wsRef (run (handler e) w) = wsRef w /\
   length (sockets (run (handler e) w)) = length (sockets w)) \/
  (wsRef (run (handler e) w) = Some (length (sockets w)) /\
   length (sockets (run (handler e) w)) = S (length (sockets w))).
Proof.
  destruct e; unfold_handlers; simpl;
    repeat case_match; simplify_eq/=;
    rewrite ?length_insert, ?length_app; simpl;
    try (left; split; first [done | lia]);
    right; split; first [done | lia].
Qed.

(** A handler keeps [wsRef] and the number of sockets, or creates one
    socket and points [wsRef] at it. *)
Lemma step_sockets (w : World) (e : Event) :
  (wsRef (step w e) = wsRef w /\ length (sockets (step w e)) = length (sockets w)) \/
  (wsRef (step w e) = Some (length (sockets w)) /\
   length (sockets (step w e)) = S (length (sockets w))).
Proof.
  unfold step.
  assert (Hlen : length (sockets (rerender w (run (handler e) w)))
                 = length (sockets (run (handler e) w))).
  { destruct (rerender_sockets w (run (handler e) w)) as [-> | (id & s & _ & _ & ->)];
      [done | apply length_insert]. }
  destruct (rerender_cells w (run (handler e) w)) as (_ & _ & _ & _ & _ & _ & _ & -> & _).
  rewrite Hlen. apply handler_sockets.
Qed.

(** [wsRef.current] never dangles: the [TypeError] branch of [ws_send]
    for a ref naming no socket is not reachable. *)
Lemma reachable_wsRef_bound (es : list Event) :
  wsRef_bound (run_events es initial_world).
Proof.
  unfold run_events.
  assert (Hinit : wsRef_bound initial_world) by exact I.
  revert Hinit. generalize initial_world as w. revert es.
  induction es as [|e es IH]; intros w Hw; simpl; [exact Hw|].
  apply IH. unfold wsRef_bound in *.
  destruct (step_sockets w e) as [[-> ->] | [-> ->]]; [exact Hw | lia].
Qed.

(** A mounted component renders: in every state events can lead to,
    the state rendered before a handler ran is a state that renders. *)
Lemma reachable_mounted_renders (es : list Event) :
  mounted (run_events es initial_world) = true ->
  renders (run_events es initial_world) = true.
Proof.
  unfold run_events.
  assert (Hinit : mounted initial_world = true -> renders initial_world = true)
    by reflexivity.
  revert Hinit. generalize initial_world as w. revert es.
  induction es as [|e es IH]; intros w Hw; simpl; [exact Hw|].
  apply IH. unfold step, rerender.
  destruct (mounted (run (handler e) w)) eqn:Hm1; simpl.
  - assert (Hm : mounted w = true).
    { revert Hm1. destruct e; unfold_handlers; simpl;
        repeat case_match; simplify_eq/=; done. }
    rewrite (Hw Hm); simpl.
    destruct (renders (run (handler e) w)) eqn:Hr1; simpl; [done|].
    intros Hdead. by destruct (unmount_tree_cells (run (handler e) w)) as (Hfalse & _);
      rewrite Hfalse in Hdead.
  - intros Hm. by rewrite Hm1 in Hm.
Qed.

(** ** [LogEntry] *)

(** [LogEntry] never drops the content. *)
Lemma LogEntry_children (log : LogRecord) (line : Element) :
  LogEntry log = Normal line -> children line = log_content log.
Proof.
  unfold LogEntry. repeat case_match; try discriminate.
  by intros [= <-].
Qed.

(** A type whose key is neither in the style table nor a member of
    [Object.prototype] gets the default style. *)
Lemma LogEntry_default_style (log : LogRecord) (key : string) :
  to_string (log_type log) = Some key ->
  styles !! key = None ->
  object_prototype_get key = JUndefined ->
  LogEntry log =
    Normal (mkElement (default_style ++ common_classes)%string (log_content log)).
Proof.
  intros Hkey Hown Hproto. unfold LogEntry, object_get.
  by rewrite Hkey, Hown, Hproto.
Qed.

(** C9 at the type ["constructor"]: the type is not in the style table,
    the lookup [styles[type]] finds the inherited [Object] function, and
    the element's class is that function's text instead of the default
    style. *)
Theorem LogEntry_inherited_key :
  styles !! "constructor" = None /\
  LogEntry inherited_entry =
    Normal
      (mkElement
         "function Object() { [native code] } whitespace-pre-wrap break-words font-mono leading-relaxed"
         (js_str "hello")) /\
  match LogEntry inherited_entry with
  | Normal line => className line <> (default_style ++ common_classes)%string
  | Thrown _ => False
  end.
Proof.
  split; [reflexivity|]. split; [reflexivity|].
  vm_compute. intros Hclass. discriminate Hclass.
Qed.

End ObserverProps.

(* ===================================================================== *)
(** * Properties of the session core                                      *)
(* ===================================================================== *)

Module CoreProps.
Import Core.
Local Open Scope list_scope.

(** ** Clamping *)

Lemma clamp_bounds (lo hi v : Q) :
  (lo <= hi -> lo <= clamp lo hi v /\ clamp lo hi v <= hi)%Q.
Proof.
  intros Hle. unfold clamp.
  destruct (Q.max_spec lo (Qmin hi v)) as [[? Hmax]|[? Hmax]];
    destruct (Q.min_spec hi v) as [[? Hmin]|[? Hmin]]; split; lra.
Qed.

Lemma clamp_inside (lo hi v : Q) :
  (lo <= v -> v <= hi -> clamp lo hi v == v)%Q.
Proof.
  intros Hlo Hhi. unfold clamp.
  destruct (Q.max_spec lo (Qmin hi v)) as [[? Hmax]|[? Hmax]];
    destruct (Q.min_spec hi v) as [[? Hmin]|[? Hmin]]; lra.
Qed.

(** On an axis of at least one pixel, the clamped start and extent lie
    inside the axis and the extent is at least one pixel. *)
Lemma clamp_axis_within (start extent dimension : Q) :
  (1 <= dimension ->
   0 <= fst (clamp_axis start extent dimension) /\
   1 <= snd (clamp_axis start extent dimension) /\
   fst (clamp_axis start extent dimension) + snd (clamp_axis start extent dimension)
     <= dimension)%Q.
Proof.
  intros Hdim. unfold clamp_axis; simpl.
  set (near := clamp 0 (dimension - 1) start).
  destruct (clamp_bounds 0 (dimension - 1) start) as [Hn0 Hn1]; [lra|].
  fold near in Hn0, Hn1.
  destruct (clamp_bounds (near + 1) dimension (start + extent)) as [Hf0 Hf1]; [lra|].
  repeat split; lra.
Qed.

(** A start and extent already inside the axis are left as they are. *)
Lemma clamp_axis_inside (start extent dimension : Q) :
  (0 <= start -> 1 <= extent -> start + extent <= dimension ->
   fst (clamp_axis start extent dimension) == start /\
   snd (clamp_axis start extent dimension) == extent)%Q.
Proof.
  intros Hstart Hextent Hfar. unfold clamp_axis; simpl.
  set (near := clamp 0 (dimension - 1) start).
  assert (Hnear : (near == start)%Q) by (apply clamp_inside; lra).
  assert (Hfar' : (clamp (near + 1) dimension (start + extent) == start + extent)%Q)
    by (apply clamp_inside; lra).
  split; lra.
Qed.

Lemma clamp_region_within (r : Region) (source : ImageReference) :
  valid_image source -> within (clamp_region r source) source.
Proof.
  intros [Hw Hh]. unfold within, clamp_region; simpl.
  destruct (clamp_axis_within (rx r) (rw r) (img_w source) Hw) as (? & ? & ?).
  destruct (clamp_axis_within (ry r) (rh r) (img_h source) Hh) as (? & ? & ?).
  repeat split; assumption.
Qed.

Lemma clamp_region_inside (r : Region) (source : ImageReference) :
  within r source -> Region_eq (clamp_region r source) r.
Proof.
  intros (Hx & Hw & Hxw & Hy & Hh & Hyh). unfold Region_eq, clamp_region; simpl.
  destruct (clamp_axis_inside (rx r) (rw r) (img_w source)) as [? ?]; try assumption.
  destruct (clamp_axis_inside (ry r) (rh r) (img_h source)) as [? ?]; try assumption.
  repeat split; assumption.
Qed.

(** What the registry does with a well-formed crop request. *)
Lemma execute_crop (cfg : Config) (req : ToolCallRequest) (r : Region) (s : Session) :
  registry cfg !! tool_name req = Some CropTool ->
  parse_region (tool_args req) = Some r ->
  execute cfg req s =
    (mkResult (tool_name req) true
       (PImage (mkImage (length (store s)) (rw (executed_region r s))
                  (rh (executed_region r s)))),
     store s ++
       [mkStored (mkImage (length (store s)) (rw (executed_region r s))
                    (rh (executed_region r s)))
          (Some (img_id (target s), executed_region r s))]).
Proof.
  intros Htool Hargs. unfold execute, crop. by rewrite Htool, Hargs.
Qed.

Lemma parse_crop_request (r : Region) :
  parse_region (tool_args (crop_request r)) = Some r.
Proof. by destruct r. Qed.

(** ** The crop tool *)

(** C1: a well-formed crop request executes on the region obtained by
    the proportional mapping [true_coord = model_coord * (true_dimension
    / shown_dimension)], applied to each axis on its own ([x] and [w] by
    the widths, [y] and [h] by the heights) and then clamped to the
    image bounds, and a derived image of that region is stored and
    returned; whenever the mapped region lies inside the source with at
    least one pixel per axis, the executed region is exactly the mapped
    one; in particular region [{0,0,100,100}] shown at 500x500 against a
    2000x2000 source executes on [{0,0,400,400}]. *)
Theorem crop_rescale_proportional
  (cfg : Config) (req : ToolCallRequest) (r : Region) (s : Session) :
  registry cfg !! tool_name req = Some CropTool ->
  parse_region (tool_args req) = Some r ->
  let mapped :=
    {| rx := (rx r * (img_w (target s) / shown_w s))%Q;
       ry := (ry r * (img_h (target s) / shown_h s))%Q;
       rw := (rw r * (img_w (target s) / shown_w s))%Q;
       rh := (rh r * (img_h (target s) / shown_h s))%Q |} in
  let pixels := executed_region r s in
  let derived := mkImage (length (store s)) (rw pixels) (rh pixels) in
  execute cfg req s =
    (mkResult (tool_name req) true (PImage derived),
     store s ++ [mkStored derived (Some (img_id (target s), pixels))]) /\
  Region_eq pixels (clamp_region mapped (target s)) /\
  (within mapped (target s) -> Region_eq pixels mapped) /\
  (r = mkRegion 0 0 100 100 ->
   img_w (target s) = 2000%Q -> img_h (target s) = 2000%Q ->
   shown_w s = 500%Q -> shown_h s = 500%Q ->
   Region_eq pixels (mkRegion 0 0 400 400)).
Proof.
  intros Htool Hargs mapped pixels derived.
  assert (Hclamped : pixels = clamp_region mapped (target s)) by reflexivity.
  split; [by apply execute_crop|]. split; [|split].
  - rewrite Hclamped. repeat split; reflexivity.
  - intros Hin. rewrite Hclamped. by apply clamp_region_inside.
  - intros -> Hw Hh Hsw Hsh. subst pixels.
    unfold executed_region, clamp_region, rescale_region, Region_eq; simpl.
    rewrite Hw, Hh, Hsw, Hsh. vm_compute. repeat split; reflexivity.
Qed.

Lemma crop_rescale_proportional_witness :
  Region_eq (executed_region (mkRegion 0 0 100 100) sample_session)
    (mkRegion 0 0 400 400).
Proof.
  destruct (crop_rescale_proportional sample_config
              (crop_request (mkRegion 0 0 100 100)) (mkRegion 0 0 100 100)
              sample_session eq_refl eq_refl) as (_ & _ & _ & Hexample).
  apply Hexample; reflexivity.
Defined.

(** The clamp at work: a request reaching past the image does not
    execute on its mapped region but on what the image holds of it.
    Region [{0,0,600,600}] shown at 500x500 maps to width 2400 on a
    2000x2000 source and executes on width 2000. *)
Lemma crop_beyond_bounds_clamped :
  parse_region (tool_args (crop_request oversized_region)) = Some oversized_region /\
  (rw (rescale_region oversized_region 2000 2000 500 500) == 2400)%Q /\
  (rw (executed_region oversized_region sample_session) == 2000)%Q.
Proof.
  split; [reflexivity|]. split; reflexivity.
Qed.

(** C4: whatever region a well-formed crop request names (outside the
    image, negative, empty), the region executed lies inside the source
    with at least one pixel per axis, the tool returns a success result
    carrying a derived image of at least one pixel per axis, and the
    session returns to [AwaitingModel] with no failure recorded. *)
Theorem crop_always_within
  (cfg : Config) (req : ToolCallRequest) (r : Region) (s : Session) :
  valid_image (target s) ->
  registry cfg !! tool_name req = Some CropTool ->
  parse_region (tool_args req) = Some r ->
  let pixels := executed_region r s in
  let derived := mkImage (length (store s)) (rw pixels) (rh pixels) in
  within pixels (target s) /\
  valid_image derived /\
  fst (execute cfg req s) = mkResult (tool_name req) true (PImage derived) /\
  state (dispatch cfg req s) = AwaitingModel /\
  reason (dispatch cfg req s) = reason s.
Proof.
  intros Hvalid Htool Hargs pixels derived.
  assert (Hin : within pixels (target s)) by by apply clamp_region_within.
  split; [exact Hin|]. split.
  - destruct Hin as (_ & Hw & _ & _ & Hh & _). by split.
  - split; [|by split].
    by rewrite (execute_crop cfg req r s Htool Hargs).
Qed.

Lemma crop_always_within_witness :
  within (executed_region (mkRegion 5000 (-300) (-10) 0) sample_session)
    sample_source.
Proof.
  refine (proj1 (crop_always_within sample_config
                   (crop_request (mkRegion 5000 (-300) (-10) 0))
                   (mkRegion 5000 (-300) (-10) 0) sample_session _ eq_refl eq_refl)).
  split; discriminate.
Defined.

(** ** Dispatch *)

(** C2: a request naming a tool the registry does not know is answered
    by a failure result with an explanation; one tool turn carrying it is
    appended to the history, one [tool_result] event is emitted, the
    session returns to [AwaitingModel], and nothing else changes: no
    failure is recorded and the session does not end. *)
Theorem unknown_tool_recovers (cfg : Config) (req : ToolCallRequest) (s : Session) :
  registry cfg !! tool_name req = None ->
  let explanation := ("unknown tool: " ++ tool_name req)%string in
  let result := mkResult (tool_name req) false (PText explanation) in
  explanation <> EmptyString /\
  execute cfg req s = (result, store s) /\
  dispatch cfg req s =
    {| target := target s; shown_w := shown_w s; shown_h := shown_h s;
       history := history s ++ [mkTurn RTool (TResult result)];
       state := AwaitingModel;
       model_calls := model_calls s;
       reason := reason s;
       store := store s;
       transcript := transcript s ++ [mkEvent tool_result (CText explanation)] |}.
Proof.
  intros Hunknown explanation result.
  split; [discriminate|].
  assert (Hexec : execute cfg req s = (result, store s)).
  { unfold execute. by rewrite Hunknown. }
  split; [exact Hexec|].
  unfold dispatch. by rewrite Hexec.
Qed.

Lemma unknown_tool_recovers_witness :
  state (dispatch sample_config (mkRequest "teleport" ∅) sample_session)
  = AwaitingModel.
Proof.
  destruct (unknown_tool_recovers sample_config (mkRequest "teleport" ∅)
              sample_session eq_refl) as (_ & _ & Hdispatch).
  rewrite Hdispatch. reflexivity.
Defined.

(** ** The turn loop *)

Section TurnBudget.

Variable cfg : Config.
Hypothesis Hgoing : keeps_going cfg.

(** With such a model, a model turn costs one call and leaves the
    session awaiting the model. *)
Lemma model_turn_keeps_going (s : Session) :
  state (model_turn cfg s) = AwaitingModel /\
  model_calls (model_turn cfg s) = S (model_calls s).
Proof.
  unfold model_turn. pose proof (Hgoing (history s)) as Hresp.
  destruct (model cfg (history s)) as [text|req|e].
  - rewrite Hresp. by split.
  - by split.
  - contradiction.
Qed.

Lemma after_turns_keeps_going (k : nat) (s : Session) :
  state s = AwaitingModel ->
  state (after_turns cfg k s) = AwaitingModel /\
  model_calls (after_turns cfg k s) = k + model_calls s.
Proof.
  intros Hstate. induction k as [|k [IHstate IHcalls]]; [by split|].
  unfold after_turns in *. simpl.
  destruct (model_turn_keeps_going (Nat.iter k (model_turn cfg) s)) as [Hs Hc].
  split; [exact Hs|]. rewrite Hc, IHcalls. reflexivity.
Qed.

(** The loop spends its whole budget on model turns and then fails. *)
Lemma turn_loop_exhausts (budget : nat) (s : Session) :
  state s = AwaitingModel ->
  turn_loop cfg budget s = fail turn_limit_exceeded (after_turns cfg budget s).
Proof.
  revert s. induction budget as [|budget IH]; intros s Hstate; simpl.
  - by rewrite Hstate.
  - rewrite Hstate.
    rewrite IH by apply model_turn_keeps_going.
    unfold after_turns. by rewrite Nat.iter_swap.
Qed.

End TurnBudget.

(** C3: with a model that never gives a final answer and never fails, a
    session started on a known image is still awaiting the model after
    each of its first [max_turns] model calls, and is then failed with
    reason "turn limit exceeded" after exactly [max_turns] model calls:
    the call after the last allowed one is never made. *)
Theorem turn_limit_boundary (cfg : Config) (prompt : string) (s : Session) :
  keeps_going cfg ->
  state s = Idle ->
  known_image (target s) (store s) = true ->
  model_calls s = 0 ->
  let final := run_session cfg prompt s in
  (forall k, k <= max_turns cfg ->
     state (after_turns cfg k (start prompt s)) = AwaitingModel /\
     model_calls (after_turns cfg k (start prompt s)) = k) /\
  final = fail turn_limit_exceeded (after_turns cfg (max_turns cfg) (start prompt s)) /\
  state final = Failed /\
  reason final = Some turn_limit_exceeded /\
  model_calls final = max_turns cfg.
Proof.
  intros Hgoing Hidle Hknown Hcalls final.
  assert (Hstart : state (start prompt s) = AwaitingModel)
    by (unfold start; by rewrite Hidle, Hknown).
  assert (Hstart_calls : model_calls (start prompt s) = 0)
    by (unfold start; by rewrite Hidle, Hknown).
  assert (Hprefix : forall k,
            state (after_turns cfg k (start prompt s)) = AwaitingModel /\
            model_calls (after_turns cfg k (start prompt s)) = k).
  { intros k.
    destruct (after_turns_keeps_going cfg Hgoing k _ Hstart) as [Hs Hc].
    split; [exact Hs|]. rewrite Hc, Hstart_calls. lia. }
  assert (Hfinal : final =
            fail turn_limit_exceeded (after_turns cfg (max_turns cfg) (start prompt s)))
    by (apply turn_loop_exhausts; assumption).
  split; [intros k _; apply Hprefix|].
  split; [exact Hfinal|].
  rewrite Hfinal. simpl. repeat split. apply Hprefix.
Qed.

Lemma turn_limit_boundary_witness :
  state (run_session sample_config "Where was this taken?" sample_session) = Failed /\
  model_calls (run_session sample_config "Where was this taken?" sample_session) = 10.
Proof.
  assert (Hgoing : keeps_going sample_config) by (intros context; reflexivity).
  destruct (turn_limit_boundary sample_config "Where was this taken?" sample_session
              Hgoing eq_refl eq_refl eq_refl) as (_ & _ & Hstate & _ & Hcalls).
  split; assumption.
Defined.

End CoreProps.

(* ===================================================================== *)
(** * Further properties of the observer                                  *)
(* ===================================================================== *)

Module ObserverMore.
Import Observer.
Local Open Scope list_scope.

(** ** Shared facts *)

Lemma current_socket_open_inv (w : World) :
  current_socket_open w = true ->
  exists id s, wsRef w = Some id /\ sockets w !! id = Some s /\ readyState s = OPEN.
Proof.
  unfold current_socket_open. intros H.
  destruct (wsRef w) as [id|] eqn:Href; [|discriminate].
  destruct (sockets w !! id) as [s|] eqn:Hsock; [|discriminate].
  apply bool_decide_eq_true in H. by exists id, s.
Qed.

Lemma connect_when_open (w : World) :
  current_socket_open w = true -> connect w = (Normal tt, w).
Proof. intros H. unfold connect, bind, get. by rewrite H. Qed.

Lemma connect_when_not_open (w : World) :
  current_socket_open w = false ->
  connect w =
    (Normal tt,
     with_wsRef (Some (length (sockets w)))
       (with_sockets (sockets w ++ [mkSocket socket_endpoint CONNECTING []]) w)).
Proof. intros H. unfold connect, bind, get. by rewrite H. Qed.

(** ** [connect] *)

(** X1: [connect] is not idempotent while the socket is still
    connecting: called twice with no open socket in between, it creates
    two sockets, keeps both (the first is not closed), and points the ref
    at the second; the sockets that were there stay as they are. *)
Theorem connect_twice_while_connecting (w : World) :
  current_socket_open w = false ->
  sockets (run connect (run connect w)) =
    sockets w ++ [mkSocket socket_endpoint CONNECTING [];
                  mkSocket socket_endpoint CONNECTING []] /\
  wsRef (run connect (run connect w)) = Some (S (length (sockets w))) /\
  logs (run connect (run connect w)) = logs w /\
  connected (run connect (run connect w)) = connected w.
Proof.
  intros Hclosed. unfold run at 2 4 6 8.
  rewrite (connect_when_not_open w Hclosed). simpl.
  set (w1 := with_wsRef _ _).
  assert (Hstill : current_socket_open w1 = false).
  { unfold current_socket_open, w1; simpl.
    rewrite lookup_app_r by lia. by rewrite Nat.sub_diag. }
  unfold run. rewrite (connect_when_not_open w1 Hstill). subst w1; simpl.
  rewrite length_app, <- app_assoc. simpl.
  repeat split. f_equal. lia.
Qed.

Lemma connect_twice_while_connecting_witness :
  length (sockets (run connect (run connect initial_world))) = 2.
Proof.
  destruct (connect_twice_while_connecting initial_world eq_refl) as (Hs & _).
  rewrite Hs. reflexivity.
Defined.

(** What the close of a socket does to the state. *)
Lemma step_close (w : World) (closed : nat) (now : string) :
  connected (step w (WsClose closed now)) = false /\
  loading (step w (WsClose closed now)) = false /\
  wsRef (step w (WsClose closed now)) = wsRef w /\
  imageFile (step w (WsClose closed now)) = imageFile w /\
  requests (step w (WsClose closed now)) = requests w /\
  (forall j, j <> closed ->
     sockets (step w (WsClose closed now)) !! j = sockets w !! j).
Proof.
  rewrite (ObserverProps.step_calm w (WsClose closed now) eq_refl).
  unfold handler, run, ws_onclose, bind, set_readyState, modify; simpl.
  destruct (sockets w !! closed) as [s|]; simpl; repeat split; try done.
  intros j Hj. by rewrite list_lookup_insert_ne.
Qed.

(** X2: the close of a socket that is no longer the current one, while
    the current one is open, unsets the connected flag although the
    connection is open.  From then on [connect] returns at once, since
    the current socket is open, and [startInvestigation] refuses, since
    the flag is unset: the reconnect button is shown and does nothing,
    and the action button is disabled. *)
Theorem stale_close_locks_out
  (w : World) (id stale : nat) (s : Socket) (now : string) :
  wsRef w = Some id ->
  sockets w !! id = Some s ->
  readyState s = OPEN ->
  stale <> id ->
  let w' := step w (WsClose stale now) in
  connected w' = false /\
  current_socket_open w' = true /\
  run connect w' = w' /\
  run startInvestigation w' = w' /\
  connect_button_shown (render w') = true /\
  start_disabled (render w') = true.
Proof.
  intros Href Hsock Hopen Hstale w'.
  destruct (step_close w stale now) as (Hconn & _ & Href' & _ & _ & Hsocks).
  fold w' in Hconn, Href', Hsocks. clearbody w'.
  assert (Hcur : current_socket_open w' = true).
  { unfold current_socket_open.
    rewrite Href', Href, (Hsocks id) by done. rewrite Hsock.
    by apply bool_decide_eq_true. }
  split; [exact Hconn|]. split; [exact Hcur|]. split; [|split; [|split]].
  - unfold run. by rewrite (connect_when_open w' Hcur).
  - unfold run, startInvestigation, bind, get. rewrite Hconn.
    by destruct (imageFile w').
  - unfold render; simpl. by rewrite Hconn.
  - unfold render; simpl. by rewrite Hconn.
Qed.

Lemma stale_close_locks_out_witness :
  run connect (step second_socket_open (WsClose 0 "10:00:00"))
  = step second_socket_open (WsClose 0 "10:00:00") /\
  connected (step second_socket_open (WsClose 0 "10:00:00")) = false.
Proof.
  destruct (stale_close_locks_out second_socket_open 1 0
              (mkSocket socket_endpoint OPEN []) "10:00:00"
              eq_refl eq_refl eq_refl) as (Hconn & _ & Hconnect & _); [lia|].
  split; assumption.
Defined.

(** ** [startInvestigation], after the upload *)

(** X3: when the upload fails or its body is not JSON, the body is
    [null], or the current socket is missing or still connecting, the
    [catch] block runs: exactly one "Upload Failed." error entry is
    appended and the loading flag is cleared; nothing is sent and nothing
    else changes. *)
Theorem resume_failure_reported (w : World) (response : option JSON) (now : string) :
  resume_throws w response = true ->
  startInvestigation_resume response now w =
    (Normal tt,
     with_loading false (with_logs (logs w ++ [upload_failed_entry now]) w)).
Proof.
  intros Hthrows. unfold resume_throws in Hthrows.
  ObserverProps.resume_cases w response ltac:(reflexivity);
    simpl in Hthrows; try discriminate;
    match goal with
    | H : readyState _ = _ |- _ => rewrite H in Hthrows
    end; discriminate.
Qed.

Lemma resume_failure_reported_witness :
  logs (run (startInvestigation_resume None "10:05:00") sample_world)
  = logs sample_world ++ [upload_failed_entry "10:05:00"].
Proof.
  unfold run.
  rewrite (resume_failure_reported sample_world None "10:05:00" eq_refl).
  reflexivity.
Defined.

(** X4: when the upload has answered with a JSON value other than [null]
    and the current socket is closing or closed, [send] drops the
    message without throwing: nothing is sent, nothing is logged, and the
    loading flag is left as it is. *)
Theorem resume_dropped_when_closing (w : World) (data : JSON) (now : string) :
  data <> JNull ->
  current_socket_closing w = true ->
  startInvestigation_resume (Some data) now w = (Normal tt, w).
Proof.
  intros Hnull Hclosing. unfold current_socket_closing in Hclosing.
  unfold startInvestigation_resume, try_catch, bind, await_json, ret, throw,
    prop, ws_send.
  destruct data; try congruence; simpl;
    destruct (wsRef w) as [id|]; try discriminate;
    destruct (sockets w !! id) as [sock|]; try discriminate;
    apply bool_decide_eq_true in Hclosing;
    destruct Hclosing as [-> | ->]; reflexivity.
Qed.

Lemma resume_dropped_when_closing_witness :
  run (startInvestigation_resume
         (Some (JObj {[ "file_path" := JStr "uploads/street.jpg" ]})) "10:05:00")
    (step sample_world (WsClose 0 "10:04:00"))
  = step sample_world (WsClose 0 "10:04:00").
Proof.
  unfold run.
  rewrite (resume_dropped_when_closing (step sample_world (WsClose 0 "10:04:00"))
             (JObj {[ "file_path" := JStr "uploads/street.jpg" ]}) "10:05:00");
    [reflexivity | discriminate | reflexivity].
Defined.

(** X5: the response is not checked for a [file_path]: when the upload
    answers with any JSON value other than [null] that has no such field
    (an error object, a string, a number, an array) and the current
    socket is open, the empty object is sent as the start message;
    nothing is logged and the loading flag is left as it is. *)
Theorem resume_sends_empty_object
  (w : World) (data : JSON) (id : nat) (s : Socket) (now : string) :
  data <> JNull ->
  prop_value data "file_path" = JUndefined ->
  wsRef w = Some id -> sockets w !! id = Some s -> readyState s = OPEN ->
  startInvestigation_resume (Some data) now w =
    (Normal tt, with_sockets (<[id := transmitted (JObj ∅) s]> (sockets w)) w).
Proof.
  intros Hnull Hfield Href Hsock Hopen.
  unfold startInvestigation_resume, try_catch, bind, await_json, ret, throw, prop.
  destruct data; try congruence; simpl in *; try rewrite Hfield; simpl;
    unfold ws_send; rewrite Href, Hsock, Hopen;
    unfold transmitted; by rewrite Hopen.
Qed.

Lemma resume_sends_empty_object_witness :
  sockets (run (startInvestigation_resume
                  (Some (JObj {[ "detail" := JStr "Unsupported file type" ]}))
                  "10:05:00") sample_world)
  = [mkSocket socket_endpoint OPEN [JObj ∅]].
Proof.
  unfold run.
  rewrite (resume_sends_empty_object sample_world
             (JObj {[ "detail" := JStr "Unsupported file type" ]}) 0
             (mkSocket socket_endpoint OPEN []) "10:05:00");
    [reflexivity | discriminate | reflexivity ..].
Defined.

(** X6: with the connected flag set while the current socket is still
    connecting (an earlier socket has opened), an investigation uploads
    the file and then fails to start: whatever the upload answers,
    nothing is sent, the log list holds the single entry "Upload
    Failed." and the loading flag is cleared. *)
Theorem start_on_connecting_socket
  (w : World) (file : File) (id : nat) (s : Socket)
  (response : option JSON) (now : string) :
  imageFile w = Some file ->
  connected w = true ->
  wsRef w = Some id -> sockets w !! id = Some s -> readyState s = CONNECTING ->
  let w' := run_events [ClickStart; UploadSettled response now] w in
  requests w' = requests w ++ [upload_request file] /\
  sockets w' = sockets w /\
  logs w' = [upload_failed_entry now] /\
  loading w' = false.
Proof.
  intros Hfile Hconn Href Hsock Hstate w'.
  set (w1 := with_requests (requests w ++ [upload_request file])
               (with_zoomedImage None (with_logs [] (with_loading true w)))).
  assert (Hstart : step w ClickStart = w1).
  { rewrite (ObserverProps.step_calm w ClickStart eq_refl).
    unfold w1. destruct w; simpl in *; subst. reflexivity. }
  assert (Hw' : w' = with_loading false (with_logs (logs w1 ++ [upload_failed_entry now]) w1)).
  { unfold w', run_events; simpl. rewrite Hstart.
    rewrite (ObserverProps.step_calm w1 (UploadSettled response now) eq_refl).
    unfold handler, run, startInvestigation_resume, try_catch, bind,
      await_json, ret, throw, prop, ws_send, w1; simpl.
    destruct response as [[]|]; simpl; rewrite ?Href, ?Hsock, ?Hstate; reflexivity. }
  rewrite Hw'. repeat split.
Qed.

Lemma start_on_connecting_socket_witness :
  logs (run_events [ClickStart; UploadSettled
                      (Some (JObj {[ "file_path" := JStr "uploads/street.jpg" ]}))
                      "10:05:00"] first_socket_open)
  = [upload_failed_entry "10:05:00"].
Proof.
  destruct (start_on_connecting_socket first_socket_open sample_file 1
              (mkSocket socket_endpoint CONNECTING [])
              (Some (JObj {[ "file_path" := JStr "uploads/street.jpg" ]}))
              "10:05:00" eq_refl eq_refl eq_refl eq_refl eq_refl)
    as (_ & _ & Hlogs & _).
  exact Hlogs.
Defined.

(** ** What is rendered *)

Lemma origin_prefixed_truthy (rest : string) :
  string_truthy (Some ("http://localhost:8000" ++ rest)%string) = true.
Proof. reflexivity. Qed.

(** X7: on a mounted component that renders, a [new_image] frame whose
    [url] has a string conversion makes the component display the zoomed
    image, with the server origin followed by that conversion as its
    source; for a frame without [url] the source is
    "http://localhost:8000undefined".  A [new_image] frame whose [url]
    has no string conversion changes nothing at all: the handler throws
    before it sets the image or appends the entry. *)
Theorem new_image_shown (w : World) (f : Frame) :
  frame_is "new_image" f = true ->
  mounted w = true ->
  renders w = true ->
  (forall text,
     to_string (prop_value (frame_data f) "url") = Some text ->
     zoom_src <$> displayed (step w (frame_event f))
       = Some (Some ("http://localhost:8000" ++ text)%string)) /\
  (prop_value (frame_data f) "url" = JUndefined ->
   zoom_src <$> displayed (step w (frame_event f))
     = Some (Some "http://localhost:8000undefined")) /\
  (to_string (prop_value (frame_data f) "url") = None ->
   step w (frame_event f) = w).
Proof.
  intros Hkind Hm Hr.
  assert (Hnull : frame_data f <> JNull).
  { intros Hdata. unfold frame_is in Hkind. by rewrite Hdata in Hkind. }
  assert (Hconv : forall text,
            to_string (prop_value (frame_data f) "url") = Some text ->
            zoom_src <$> displayed (step w (frame_event f))
              = Some (Some ("http://localhost:8000" ++ text)%string)).
  { intros text Htext.
    assert (Hurl : frame_image_url f = Some ("http://localhost:8000" ++ text)%string).
    { unfold frame_image_url. by rewrite Htext. }
    assert (Hhandled : frame_handled f = true).
    { unfold frame_handled. rewrite Hkind, Hurl. by destruct (frame_data f). }
    assert (Hshown : frame_shown f = true).
    { unfold frame_shown. rewrite Hhandled. simpl.
      unfold frame_entry. unfold frame_is in Hkind. rewrite Hkind.
      apply ObserverProps.own_entry_renders. }
    destruct (ObserverProps.step_frame_shown w f Hshown Hm Hr)
      as (Hstep & _ & _ & ->).
    rewrite Hstep. unfold run.
    rewrite (ObserverProps.ws_onmessage_frame f w Hhandled), Hkind, Hurl.
    reflexivity. }
  split; [exact Hconv|]. split.
  - intros Hurl. apply (Hconv "undefined"). by rewrite Hurl.
  - intros Hthrows.
    assert (Hunhandled : frame_handled f = false).
    { unfold frame_handled, frame_image_url. rewrite Hkind, Hthrows.
      by destruct (frame_data f). }
    unfold step, frame_event, handler, run.
    rewrite (ObserverProps.ws_onmessage_unhandled f w Hunhandled). simpl.
    by apply ObserverProps.rerender_calm.
Qed.

Lemma new_image_shown_witness :
  zoom_src <$>
    displayed (step sample_world
                 (frame_event (mkFrame 0 (JObj {[ "type" := JStr "new_image" ]})
                                 "10:06:00")))
  = Some (Some "http://localhost:8000undefined").
Proof.
  refine (proj1 (proj2 (new_image_shown sample_world
                          (mkFrame 0 (JObj {[ "type" := JStr "new_image" ]}) "10:06:00")
                          eq_refl eq_refl eq_refl)) eq_refl).
Defined.

(** X8: the action button is enabled only when the component is
    connected, has an image and is not loading; a click on the enabled
    button issues one upload of the selected image and leaves the button
    disabled and labelled "Analyzing...", so that the button cannot
    issue a second upload until something clears the loading flag. *)
Theorem enabled_click_disables (w : World) :
  start_disabled (render w) = false ->
  exists file,
    imageFile w = Some file /\ connected w = true /\ loading w = false /\
    requests (step w ClickStart) = requests w ++ [upload_request file] /\
    start_disabled (render (step w ClickStart)) = true /\
    start_label (render (step w ClickStart)) = "Analyzing...".
Proof.
  rewrite (ObserverProps.step_calm w ClickStart eq_refl).
  unfold render; simpl. intros Henabled.
  destruct w as [conn lg [file|] pv zm ld au ref socks reqs mt]; simpl in *;
    destruct conn, ld; try discriminate.
  exists file. repeat split.
Qed.

Lemma enabled_click_disables_witness :
  start_disabled (render (step sample_world ClickStart)) = true.
Proof.
  destruct (enabled_click_disables sample_world eq_refl)
    as (file & _ & _ & _ & _ & Hdisabled & _).
  exact Hdisabled.
Defined.

(** ** Runs of stream messages *)

(** What any message event does: nothing when the handler throws (the
    frame is not JSON, is [null], or is a [new_image] whose [url] has no
    string conversion), and otherwise one entry appended, with the
    zoomed image set or the loading flag cleared according to its kind,
    and the component rendered again. *)
Lemma step_message (w : World) (id : nat) (event_data : option JSON) (now : string) :
  step w (WsMessage id event_data now) =
    match event_data with
    | None => w
    | Some data =>
        let f := mkFrame id data now in
        if frame_handled f then
          rerender w
            (with_logs (logs w ++ [frame_entry f])
               (if frame_is "new_image" f then with_zoomedImage (frame_image_url f) w
                else if frame_is "session_end" f then with_loading false w
                else w))
        else w
    end.
Proof.
  destruct event_data as [data|]; simpl.
  - destruct (frame_handled (mkFrame id data now)) eqn:Hhandled.
    + unfold step, handler, run.
      pose proof (ObserverProps.ws_onmessage_frame (mkFrame id data now) w Hhandled) as Heq.
      simpl in Heq. by rewrite Heq.
    + unfold step, handler, run.
      pose proof (ObserverProps.ws_onmessage_unhandled (mkFrame id data now) w Hhandled)
        as Heq.
      simpl in Heq. rewrite Heq. simpl. by apply ObserverProps.rerender_calm.
  - unfold step, handler, run; simpl. by apply ObserverProps.rerender_calm.
Qed.

Lemma run_events_app (es1 es2 : list Event) (w : World) :
  run_events (es1 ++ es2) w = run_events es2 (run_events es1 w).
Proof. apply fold_left_app. Qed.

(** A frame is of one kind at most. *)
Lemma frame_is_exclusive (f : Frame) :
  frame_is "new_image" f = true -> frame_is "session_end" f = false.
Proof.
  unfold frame_is. intros H. apply ObserverProps.strict_eq_str_true in H.
  by rewrite H.
Qed.

Lemma all_sent_lookup (l : list Socket) (id : nat) (s : Socket) :
  l !! id = Some s ->
  concat (List.map sock_sent l) =
    concat (List.map sock_sent (take id l)) ++ sock_sent s
    ++ concat (List.map sock_sent (drop (S id) l)).
Proof.
  intros Hs. rewrite <- (take_drop_middle l id s Hs) at 1.
  rewrite map_app, concat_app. reflexivity.
Qed.

Lemma all_sent_insert (l : list Socket) (id : nat) (s s' : Socket) :
  l !! id = Some s ->
  concat (List.map sock_sent (<[id := s']> l)) =
    concat (List.map sock_sent (take id l)) ++ sock_sent s'
    ++ concat (List.map sock_sent (drop (S id) l)).
Proof.
  intros Hs. rewrite insert_take_drop by (by eapply lookup_lt_Some).
  rewrite map_app, concat_app. reflexivity.
Qed.

(** What one message event does to the connection: the cells that
    describe it, the ref and the requests stay, and the sockets stay
    too unless the frame's entry does not render, in which case the
    component goes from mounted to unmounted and the clean-up moves the
    current socket, and no other, to [CLOSING]. *)
Lemma step_message_connection
  (w : World) (id : nat) (event_data : option JSON) (now : string) :
  let w' := step w (WsMessage id event_data now) in
  connected w' = connected w /\
  imageFile w' = imageFile w /\
  previewUrl w' = previewUrl w /\
  autoScroll w' = autoScroll w /\
  wsRef w' = wsRef w /\
  requests w' = requests w /\
  all_sent w' = all_sent w /\
  length (sockets w') = length (sockets w) /\
  (forall j, wsRef w <> Some j -> sockets w' !! j = sockets w !! j) /\
  ((mounted w' = mounted w /\ sockets w' = sockets w) \/
   (mounted w = true /\ mounted w' = false)).
Proof.
  intros w'. subst w'. rewrite step_message.
  destruct event_data as [data|]; [|by repeat split; auto].
  simpl. destruct (frame_handled (mkFrame id data now)); [|by repeat split; auto].
  set (w1 := with_logs _ _).
  assert (Hcells : connected w1 = connected w /\ imageFile w1 = imageFile w /\
                   previewUrl w1 = previewUrl w /\ autoScroll w1 = autoScroll w /\
                   wsRef w1 = wsRef w /\ requests w1 = requests w /\
                   sockets w1 = sockets w /\ mounted w1 = mounted w).
  { unfold w1. by repeat case_match. }
  destruct Hcells as (Hc & Hi & Hp & Ha & Href & Hreq & Hs & Hm).
  unfold rerender. destruct (mounted w1 && renders w && negb (renders w1)) eqn:Hcrash.
  - apply andb_true_iff in Hcrash as [Hcrash _].
    apply andb_true_iff in Hcrash as [Hm1 _].
    destruct (ObserverProps.unmount_tree_cells w1)
      as (Hdead & _ & -> & _ & _ & -> & -> & -> & -> & ->).
    rewrite Hc, Hi, Hp, Ha, Href, Hreq.
    repeat (split; [reflexivity|]).
    assert (Hsockets :
      all_sent (run unmount_tree w1) = all_sent w /\
      length (sockets (run unmount_tree w1)) = length (sockets w) /\
      forall j, wsRef w <> Some j -> sockets (run unmount_tree w1) !! j = sockets w !! j).
    { unfold all_sent.
      destruct (ObserverProps.unmount_tree_sockets w1)
        as [-> | (cur & s & Hcur & Hlook & ->)]; rewrite ?Hs; [by repeat split|].
      rewrite Hs in Hlook. rewrite Href in Hcur.
      split; [|split].
      - by rewrite (all_sent_insert _ cur s _ Hlook), (all_sent_lookup _ cur s Hlook).
      - apply length_insert.
      - intros j Hj. apply list_lookup_insert_ne. congruence. }
    destruct Hsockets as (Hsent & Hlen & Hothers).
    split; [exact Hsent|]. split; [exact Hlen|]. split; [exact Hothers|].
    right. rewrite <- Hm. by split.
  - unfold all_sent. rewrite Hc, Hi, Hp, Ha, Href, Hreq, Hs, Hm.
    repeat (split; [reflexivity|]). by left.
Qed.

(** The one way in which a message reaches the sockets: a frame whose
    content is an object is appended, its line does not render, the
    component is unmounted and the clean-up closes the current socket. *)
Lemma object_content_closes_socket :
  logs (step sample_world (frame_event object_content_frame))
    = logs sample_world ++ [frame_entry object_content_frame] /\
  mounted (step sample_world (frame_event object_content_frame)) = false /\
  sockets (step sample_world (frame_event object_content_frame))
    = [mkSocket socket_endpoint CLOSING []].
Proof. repeat split. Qed.

(** X9: no stream message, well formed or not, makes the observer send
    anything, create a socket, issue a request, or change the connected
    flag, the selected file, its preview, the scroll setting or the
    ref.  A run of message events can change the socket table in one
    way only: when a frame's entry cannot be rendered the component is
    unmounted and its clean-up closes the current socket; every other
    socket stays as it is, and as long as the component is as mounted
    as before, the whole table does. *)
Theorem messages_keep_connection_state (es : list Event) (w : World) :
  forallb is_ws_message es = true ->
  connected (run_events es w) = connected w /\
  imageFile (run_events es w) = imageFile w /\
  previewUrl (run_events es w) = previewUrl w /\
  autoScroll (run_events es w) = autoScroll w /\
  wsRef (run_events es w) = wsRef w /\
  requests (run_events es w) = requests w /\
  all_sent (run_events es w) = all_sent w /\
  length (sockets (run_events es w)) = length (sockets w) /\
  (forall j, wsRef w <> Some j -> sockets (run_events es w) !! j = sockets w !! j) /\
  (mounted (run_events es w) = mounted w -> sockets (run_events es w) = sockets w).
Proof.
  intros Hall.
  assert (Hgen : forall w,
    (connected (run_events es w) = connected w /\
     imageFile (run_events es w) = imageFile w /\
     previewUrl (run_events es w) = previewUrl w /\
     autoScroll (run_events es w) = autoScroll w /\
     wsRef (run_events es w) = wsRef w /\
     requests (run_events es w) = requests w /\
     all_sent (run_events es w) = all_sent w /\
     length (sockets (run_events es w)) = length (sockets w) /\
     (forall j, wsRef w <> Some j -> sockets (run_events es w) !! j = sockets w !! j) /\
     (mounted (run_events es w) = mounted w -> sockets (run_events es w) = sockets w)) /\
    (mounted (run_events es w) = true -> mounted w = true)).
  { clear w. unfold run_events.
    induction es as [|e es IH]; intros w; simpl in *; [by repeat split|].
    apply andb_true_iff in Hall as [He Hes].
    destruct e; try discriminate.
    destruct (IH Hes (step w (WsMessage id event_data now)))
      as ((-> & -> & -> & -> & Href' & -> & -> & -> & Hothers' & Hsame') & Hmono').
    destruct (step_message_connection w id event_data now)
      as (-> & -> & -> & -> & Href & -> & -> & -> & Hothers & Hcase).
    rewrite Href', Href.
    split.
    - repeat (split; [reflexivity|]). split.
      + intros j Hj. rewrite Hothers' by (by rewrite Href). by apply Hothers.
      + intros Hm. destruct Hcase as [[Hm1 Hs1] | [Hm0 Hm1]].
        * rewrite Hsame' by (by rewrite Hm1). exact Hs1.
        * rewrite Hm0 in Hm. apply Hmono' in Hm. by rewrite Hm1 in Hm.
    - intros Hm. apply Hmono' in Hm.
      destruct Hcase as [[Hm1 _] | [Hm0 _]]; [by rewrite <- Hm1 | exact Hm0]. }
  exact (proj1 (Hgen w)).
Qed.

Lemma messages_keep_connection_state_witness :
  sockets (run_events [WsMessage 0 None "10:06:00";
                       WsMessage 0 (Some (JObj {[ "type" := JStr "session_end" ]})) "10:06:01"]
             sample_world)
  = sockets sample_world.
Proof.
  destruct (messages_keep_connection_state
              [WsMessage 0 None "10:06:00";
               WsMessage 0 (Some (JObj {[ "type" := JStr "session_end" ]})) "10:06:01"]
              sample_world eq_refl) as (_ & _ & _ & _ & _ & _ & _ & _ & _ & Hsockets).
  apply Hsockets. reflexivity.
Defined.

Lemma step_frame_loading (w : World) (f : Frame) :
  loading (step w (frame_event f)) =
    if frame_is "session_end" f then false else loading w.
Proof.
  unfold frame_event. rewrite step_message.
  destruct f as [id data now]; simpl.
  destruct (frame_handled _) eqn:Hhandled.
  - destruct (ObserverProps.rerender_cells w
                (with_logs (logs w ++ [frame_entry (mkFrame id data now)])
                   (if frame_is "new_image" (mkFrame id data now)
                    then with_zoomedImage (frame_image_url (mkFrame id data now)) w
                    else if frame_is "session_end" (mkFrame id data now)
                         then with_loading false w else w)))
      as (_ & _ & -> & _).
    destruct (frame_is "new_image" _) eqn:Hnew;
      [rewrite (frame_is_exclusive _ Hnew) | destruct (frame_is "session_end" _)];
      reflexivity.
  - unfold frame_handled in Hhandled; simpl in Hhandled.
    destruct data; try reflexivity;
      destruct (frame_is "new_image" _) eqn:Hnew; try discriminate;
      by rewrite (frame_is_exclusive _ Hnew).
Qed.

(** X10: no frame turns the loading flag on, and a [session_end] frame
    turns it off: after a run of frames the flag is off if one of them
    was a [session_end], and as it was before otherwise. *)
Theorem loading_after_frames (frames : list Frame) (w : World) :
  loading (run_events (List.map frame_event frames) w) =
    if existsb (frame_is "session_end") frames then false else loading w.
Proof.
  revert w. induction frames as [|f frames IH]; intros w; simpl; [done|].
  unfold run_events in IH. rewrite IH, step_frame_loading.
  destruct (frame_is "session_end" f); simpl; by destruct (existsb _ frames).
Qed.

Lemma step_frame_zoom (w : World) (f : Frame) :
  zoomedImage (step w (frame_event f)) =
    if frame_zooms f then frame_image_url f else zoomedImage w.
Proof.
  unfold frame_event. rewrite step_message.
  destruct f as [id data now]; simpl.
  unfold frame_zooms.
  destruct (frame_handled _) eqn:Hhandled.
  - destruct (ObserverProps.rerender_cells w
                (with_logs (logs w ++ [frame_entry (mkFrame id data now)])
                   (if frame_is "new_image" (mkFrame id data now)
                    then with_zoomedImage (frame_image_url (mkFrame id data now)) w
                    else if frame_is "session_end" (mkFrame id data now)
                         then with_loading false w else w)))
      as (_ & _ & _ & -> & _).
    unfold frame_handled in Hhandled; simpl in Hhandled.
    destruct (frame_is "new_image" _) eqn:Hnew; simpl.
    + destruct (frame_image_url _); [reflexivity | by destruct data].
    + by destruct (frame_is "session_end" _).
  - unfold frame_handled in Hhandled; simpl in Hhandled.
    destruct (frame_is "new_image" _) eqn:Hnew; simpl; [|reflexivity].
    destruct (frame_image_url _); [by destruct data | reflexivity].
Qed.

Lemma zoom_unchanged_without_image (frames : list Frame) (w : World) :
  existsb frame_zooms frames = false ->
  zoomedImage (run_events (List.map frame_event frames) w) = zoomedImage w.
Proof.
  revert w. induction frames as [|f frames IH]; intros w Hnone; simpl in *; [done|].
  apply orb_false_iff in Hnone as [Hf Hrest].
  unfold run_events in IH. rewrite (IH _ Hrest), step_frame_zoom. by rewrite Hf.
Qed.

(** X11: the zoomed image follows the last [new_image] frame whose [url]
    has a string conversion: a run of frames without one leaves it as it
    was, and otherwise it is the URL of the last such frame of the run,
    whatever came before. *)
Theorem zoom_after_frames (frames : list Frame) (w : World) :
  (existsb frame_zooms frames = false ->
   zoomedImage (run_events (List.map frame_event frames) w) = zoomedImage w) /\
  (forall before f after url,
     frames = before ++ f :: after ->
     frame_is "new_image" f = true ->
     frame_image_url f = Some url ->
     existsb frame_zooms after = false ->
     zoomedImage (run_events (List.map frame_event frames) w) = Some url).
Proof.
  split; [apply zoom_unchanged_without_image|].
  intros before f after url -> Hf Hurl Hafter.
  rewrite map_app, run_events_app. simpl.
  change (fold_left step (List.map frame_event after) ?x)
    with (run_events (List.map frame_event after) x).
  rewrite (zoom_unchanged_without_image after _ Hafter), step_frame_zoom.
  unfold frame_zooms. by rewrite Hf, Hurl.
Qed.

Lemma zoom_after_frames_witness :
  zoomedImage
    (run_events
       (List.map frame_event
          [mkFrame 0 (JObj {[ "type" := JStr "new_image"; "url" := JStr "/static/a.jpg" ]}) "10:06:00";
           mkFrame 0 (JObj {[ "type" := JStr "new_image"; "url" := JStr "/static/b.jpg" ]}) "10:06:01";
           unconvertible_url_frame])
       sample_world)
  = Some "http://localhost:8000/static/b.jpg".
Proof.
  refine (proj2 (zoom_after_frames _ sample_world)
            [mkFrame 0 (JObj {[ "type" := JStr "new_image"; "url" := JStr "/static/a.jpg" ]}) "10:06:00"]
            (mkFrame 0 (JObj {[ "type" := JStr "new_image"; "url" := JStr "/static/b.jpg" ]}) "10:06:01")
            [unconvertible_url_frame] "http://localhost:8000/static/b.jpg"
            eq_refl eq_refl eq_refl eq_refl).
Defined.

(** ** Invariants of the socket table and of what is sent *)

Lemma stringify_shape (v : JSValue) : sent_shape (JSON_stringify_file_path v).
Proof.
  destruct v as [|j| |]; simpl; try (by left); right.
  - by exists (json_serialize j).
  - by exists (JObj ∅).
Qed.

Lemma handler_sockets_cases (w : World) (e : Event) :
  sockets (run (handler e) w) = sockets w \/
  sockets (run (handler e) w) = sockets w ++ [mkSocket socket_endpoint CONNECTING []] \/
  (exists id s st,
     sockets w !! id = Some s /\
     sockets (run (handler e) w)
       = <[id := mkSocket (sock_url s) st (sock_sent s)]> (sockets w)) \/
  (exists id s msg,
     is_upload_settled e = true /\ sent_shape msg /\
     sockets w !! id = Some s /\
     sockets (run (handler e) w) =
       <[id := mkSocket (sock_url s) OPEN (sock_sent s ++ [msg])]> (sockets w)).
Proof.
  destruct e; ObserverProps.unfold_handlers; simpl;
    repeat case_match; simplify_eq/=;
    first
      [ by left
      | right; left; done
      | right; right; left; eexists _, _, _; split; [eassumption | reflexivity]
      | right; right; right; eexists _, _, _;
        split; [reflexivity|]; split; [|split; [eassumption | reflexivity]];
        first [ apply stringify_shape | by left | right; by eexists ] ].
Qed.

(** The message handler leaves the socket table alone. *)
Lemma message_handler_sockets (w : World) (e : Event) :
  is_ws_message e = true ->
  sockets (run (handler e) w) = sockets w.
Proof.
  destruct e; try discriminate. intros _.
  unfold handler, run. destruct event_data as [data|]; [|reflexivity].
  destruct (frame_handled (mkFrame id data now)) eqn:Hhandled.
  - pose proof (ObserverProps.ws_onmessage_frame (mkFrame id data now) w Hhandled) as Heq.
    simpl in Heq. rewrite Heq. simpl. by repeat case_match.
  - pose proof (ObserverProps.ws_onmessage_unhandled (mkFrame id data now) w Hhandled)
      as Heq.
    simpl in Heq. by rewrite Heq.
Qed.

(** How an event can change the socket table: not at all, by one new
    connecting socket, by the [readyState] of one socket, or, when an
    upload has settled, by one message sent on one socket. *)
Lemma step_sockets_cases (w : World) (e : Event) :
  sockets (step w e) = sockets w \/
  sockets (step w e) = sockets w ++ [mkSocket socket_endpoint CONNECTING []] \/
  (exists id s st,
     sockets w !! id = Some s /\
     sockets (step w e) = <[id := mkSocket (sock_url s) st (sock_sent s)]> (sockets w)) \/
  (exists id s msg,
     is_upload_settled e = true /\ sent_shape msg /\
     sockets w !! id = Some s /\
     sockets (step w e) =
       <[id := mkSocket (sock_url s) OPEN (sock_sent s ++ [msg])]> (sockets w)).
Proof.
  destruct (is_ws_message e) eqn:Hkind.
  - unfold step.
    destruct (ObserverProps.rerender_sockets w (run (handler e) w))
      as [-> | (id & s & _ & Hs & ->)];
      rewrite (message_handler_sockets w e Hkind) in *; [by left|].
    right; right; left. by exists id, s, CLOSING.
  - rewrite (ObserverProps.step_calm w e Hkind). apply handler_sockets_cases.
Qed.

(** What a handler does to the messages sent so far: nothing, or, when
    an upload has settled, one message of the start shape put at the
    end of one socket's messages. *)
Lemma step_all_sent (w : World) (e : Event) :
  all_sent (step w e) = all_sent w \/
  (is_upload_settled e = true /\
   exists before msg after,
     sent_shape msg /\
     all_sent w = before ++ after /\
     all_sent (step w e) = before ++ [msg] ++ after).
Proof.
  unfold all_sent.
  destruct (step_sockets_cases w e)
    as [-> | [-> | [(id & s & st & Hs & ->) | (id & s & msg & He & Hmsg & Hs & ->)]]].
  - by left.
  - left. rewrite map_app, concat_app. simpl. by rewrite app_nil_r.
  - left. by rewrite (all_sent_insert _ id s _ Hs), (all_sent_lookup _ id s Hs).
  - right. split; [exact He|].
    exists (concat (List.map sock_sent (take id (sockets w))) ++ sock_sent s), msg,
      (concat (List.map sock_sent (drop (S id) (sockets w)))).
    split; [exact Hmsg|].
    rewrite (all_sent_insert _ id s _ Hs), (all_sent_lookup _ id s Hs). simpl.
    by rewrite <- !app_assoc.
Qed.

(** X12: whatever happens to a mounted component, every message it has
    sent on any socket is a session start message, [{file_path: v}], or
    the empty object: the observer sends nothing else. *)
Theorem only_start_messages_sent (es : list Event) :
  Forall sent_shape (all_sent (run_events es initial_world)).
Proof.
  unfold run_events.
  assert (Hinit : Forall sent_shape (all_sent initial_world)) by constructor.
  revert Hinit. generalize initial_world as w.
  induction es as [|e es IH]; intros w Hw; simpl; [exact Hw|].
  apply IH.
  destruct (step_all_sent w e) as [-> | (_ & before & msg & after & Hmsg & Hold & ->)];
    [exact Hw|].
  rewrite Hold in Hw. apply Forall_app in Hw as [Hb Ha].
  apply Forall_app. split; [exact Hb|]. by constructor.
Qed.

(** X13: a message is sent only when an upload settles, and at most one
    per settled upload: after any run of events, the number of messages
    sent has grown by at most the number of settled uploads in the run. *)
Theorem sends_bounded_by_uploads (es : list Event) (w : World) :
  length (all_sent (run_events es w)) <=
    length (all_sent w) + length (filter (fun e => is_upload_settled e = true) es).
Proof.
  revert w. induction es as [|e es IH]; intros w; simpl; [lia|].
  unfold run_events in IH. etrans; [apply IH|].
  destruct (step_all_sent w e) as [-> | (He & before & msg & after & _ & -> & ->)].
  - rewrite filter_cons. case_decide; simpl; lia.
  - rewrite filter_cons. rewrite decide_True by done.
    rewrite !length_app. simpl. lia.
Qed.

(** A handler keeps the requests issued so far, and only a click on the
    action button adds one, an upload of the selected file. *)
Lemma step_requests (w : World) (e : Event) :
  requests (step w e) = requests w \/
  (e = ClickStart /\ exists file, requests (step w e) = requests w ++ [upload_request file]).
Proof.
  unfold step.
  destruct (ObserverProps.rerender_cells w (run (handler e) w))
    as (_ & _ & _ & _ & _ & _ & _ & _ & ->).
  destruct e; ObserverProps.unfold_handlers; simpl;
    repeat case_match; simplify_eq/=;
    first [ by left | right; split; [reflexivity|]; by eexists ].
Qed.

(** X14: the only request a mounted component ever issues is the POST
    of one file to the upload URL, and it issues at most one per click
    on the action button. *)
Theorem only_uploads_requested (es : list Event) :
  Forall upload_shape (requests (run_events es initial_world)) /\
  length (requests (run_events es initial_world)) <=
    length (filter (fun e => is_click_start e = true) es).
Proof.
  unfold run_events.
  assert (Hgen : forall w,
            Forall upload_shape (requests w) ->
            Forall upload_shape (requests (fold_left step es w)) /\
            length (requests (fold_left step es w)) <=
              length (requests w) + length (filter (fun e => is_click_start e = true) es)).
  { induction es as [|e es IH]; intros w Hw; simpl; [split; [exact Hw | lia]|].
    rewrite filter_cons.
    destruct (step_requests w e) as [Hsame | (-> & file & Hadd)].
    - destruct (IH (step w e)) as [Hshape Hcount]; [by rewrite Hsame|].
      split; [exact Hshape|]. rewrite Hsame in Hcount.
      case_decide; simpl; lia.
    - destruct (IH (step w ClickStart)) as [Hshape Hcount].
      + rewrite Hadd. apply Forall_app. split; [exact Hw|].
        constructor; [by exists file | constructor].
      + split; [exact Hshape|]. rewrite Hadd, length_app in Hcount.
        rewrite decide_True by done. simpl in *. lia. }
  destruct (Hgen initial_world) as [Hshape Hcount]; [constructor|].
  split; [exact Hshape | exact Hcount].
Qed.

(** X15: every socket the component creates connects to the one
    WebSocket URL, and [wsRef.current] is at all times the socket
    created last: it is null only before the first [connect] and is
    never set back to an earlier socket. *)
Theorem sockets_invariant (es : list Event) :
  Forall (fun s => sock_url s = socket_endpoint) (sockets (run_events es initial_world)) /\
  wsRef_newest (run_events es initial_world).
Proof.
  unfold run_events.
  assert (Hinit : Forall (fun s => sock_url s = socket_endpoint) (sockets initial_world) /\
                  wsRef_newest initial_world) by (split; [constructor | reflexivity]).
  revert Hinit. generalize initial_world as w.
  induction es as [|e es IH]; intros w [Hurl Hnew]; simpl; [by split|].
  apply IH. split.
  - destruct (step_sockets_cases w e)
      as [-> | [-> | [(id & s & st & Hs & ->) | (id & s & msg & _ & _ & Hs & ->)]]].
    + exact Hurl.
    + apply Forall_app. split; [exact Hurl|]. by repeat constructor.
    + apply Forall_insert; [exact Hurl|]. simpl.
      by apply (Forall_lookup_1 _ _ _ _ Hurl Hs).
    + apply Forall_insert; [exact Hurl|]. simpl.
      by apply (Forall_lookup_1 _ _ _ _ Hurl Hs).
  - unfold wsRef_newest in *.
    destruct (ObserverProps.step_sockets w e) as [[Href Hlen] | [Href Hlen]].
    + rewrite Href, Hnew.
      destruct (sockets (step w e)) as [|s' l'], (sockets w) as [|s l];
        simpl in *; try done. by inversion Hlen.
    + rewrite Href. destruct (sockets (step w e)) as [|s' l']; simpl in *; [lia|].
      f_equal. lia.
Qed.

(** ** Unmounting, selecting, reconnecting *)

(** X16: the clean-up of the mount effect closes the current socket
    only: it moves it to [CLOSING] unless it is already closed, keeps
    what was sent on it, and leaves every other socket, an earlier one
    that is still open included, and the rest of the state as they are. *)
Theorem unmount_closes_current_only (w : World) (id : nat) (s : Socket) :
  wsRef w = Some id ->
  sockets w !! id = Some s ->
  sockets (step w Unmount) !! id =
    Some (mkSocket (sock_url s)
            (match readyState s with CLOSED => CLOSED | _ => CLOSING end)
            (sock_sent s)) /\
  (forall j, j <> id -> sockets (step w Unmount) !! j = sockets w !! j) /\
  logs (step w Unmount) = logs w /\
  connected (step w Unmount) = connected w.
Proof.
  intros Href Hsock.
  assert (Hlt : id < length (sockets w)) by (by eapply lookup_lt_Some).
  rewrite (ObserverProps.step_calm w Unmount eq_refl).
  unfold handler, run, unmount_tree, unmount, bind, get, modify. rewrite Href. simpl.
  unfold ws_close. rewrite Href, Hsock.
  destruct s as [url st sent]; simpl.
  destruct st; simpl; unfold set_readyState, modify; simpl;
    rewrite ?Hsock; simpl; repeat split; try done;
    try (by rewrite list_lookup_insert_eq);
    intros j Hj; by rewrite list_lookup_insert_ne.
Qed.

Lemma unmount_closes_current_only_witness :
  sockets (step second_socket_open Unmount) !! 0
  = sockets second_socket_open !! 0.
Proof.
  destruct (unmount_closes_current_only second_socket_open 1
              (mkSocket socket_endpoint OPEN []) eq_refl eq_refl)
    as (_ & Hothers & _).
  apply Hothers. lia.
Defined.

(** X17: the file uploaded is the one selected last, and a file dialog
    closed without a choice keeps the selection; the "Image selected"
    entry does not survive the start of the investigation, which leaves
    an empty log list. *)
Theorem select_then_start
  (w : World) (file : File) (blob blob' t1 t2 : string) :
  connected w = true ->
  let w' := run_events [FileSelect (Some file) blob t1;
                        FileSelect None blob' t2;
                        ClickStart] w in
  requests w' = requests w ++ [upload_request file] /\
  imageFile w' = Some file /\
  previewUrl w' = Some blob /\
  logs w' = [] /\
  loading w' = true.
Proof.
  intros Hconn w'. subst w'. unfold run_events. simpl.
  rewrite !ObserverProps.step_calm by reflexivity.
  destruct w; simpl in *; subst. repeat split.
Qed.

Lemma select_then_start_witness :
  requests (run_events [FileSelect (Some (mkFile "harbour.png" [])) "blob:harbour" "10:10:00";
                        FileSelect None "blob:none" "10:10:05";
                        ClickStart] sample_world)
  = [upload_request (mkFile "harbour.png" [])].
Proof.
  destruct (select_then_start sample_world (mkFile "harbour.png" [])
              "blob:harbour" "blob:none" "10:10:00" "10:10:05" eq_refl)
    as (Hrequests & _).
  exact Hrequests.
Defined.

(** X18: reconnecting after the current socket has closed: the close, a
    click on the reconnect button and the opening of the new socket
    leave the component connected on a new socket, with the loading
    flag cleared and an empty log list (the earlier entries and the
    "Connection Lost" entry are gone), while the closed socket stays in
    the table and the selected file and the zoomed image are kept. *)
Theorem reconnect_after_close (w : World) (id : nat) (s : Socket) (now : string) :
  wsRef w = Some id ->
  sockets w !! id = Some s ->
  let fresh := length (sockets w) in
  let w' := run_events [WsClose id now; ClickConnect; WsOpen fresh] w in
  connected w' = true /\
  logs w' = [] /\
  loading w' = false /\
  wsRef w' = Some fresh /\
  sockets w' =
    <[id := mkSocket (sock_url s) CLOSED (sock_sent s)]> (sockets w)
    ++ [mkSocket socket_endpoint OPEN []] /\
  imageFile w' = imageFile w /\
  zoomedImage w' = zoomedImage w.
Proof.
  intros Href Hsock fresh w'.
  assert (Hlt : id < length (sockets w)) by (by eapply lookup_lt_Some).
  set (closed := <[id := mkSocket (sock_url s) CLOSED (sock_sent s)]> (sockets w)).
  assert (Hlen : length closed = fresh) by apply length_insert.
  set (w1 := step w (WsClose id now)).
  assert (Hw1 : w1 = with_loading false
                  (with_logs (logs w ++ [mkLog (js_str "error")
                                           (js_str "Connection Lost. Reconnect required.") now])
                     (with_connected false (with_sockets closed w)))).
  { unfold w1. rewrite (ObserverProps.step_calm w (WsClose id now) eq_refl).
    unfold handler, run, ws_onclose, bind, set_readyState, modify; simpl.
    by rewrite Hsock. }
  assert (Hnot : current_socket_open w1 = false).
  { rewrite Hw1. unfold current_socket_open; simpl. rewrite Href.
    unfold closed. by rewrite list_lookup_insert_eq. }
  set (w2 := step w1 ClickConnect).
  assert (Hw2 : w2 = with_wsRef (Some fresh)
                  (with_sockets (closed ++ [mkSocket socket_endpoint CONNECTING []]) w1)).
  { unfold w2. rewrite (ObserverProps.step_calm w1 ClickConnect eq_refl).
    unfold handler, run. rewrite (connect_when_not_open w1 Hnot).
    rewrite Hw1; simpl. by rewrite Hlen. }
  assert (Hw' : w' = with_logs [] (with_connected true
                  (with_sockets (closed ++ [mkSocket socket_endpoint OPEN []]) w2))).
  { unfold w', run_events; simpl. fold w1. fold w2.
    rewrite (ObserverProps.step_calm w2 (WsOpen fresh) eq_refl).
    unfold handler, run, ws_onopen, bind, set_readyState, modify; simpl.
    rewrite Hw2; simpl.
    rewrite lookup_app_r by lia. rewrite Hlen, Nat.sub_diag; simpl.
    rewrite insert_app_r_alt by lia. by rewrite Hlen, Nat.sub_diag. }
  rewrite Hw', Hw2, Hw1. simpl. repeat split.
Qed.

Lemma reconnect_after_close_witness :
  logs (run_events [WsClose 0 "10:20:00"; ClickConnect; WsOpen 1] sample_world) = [] /\
  wsRef (run_events [WsClose 0 "10:20:00"; ClickConnect; WsOpen 1] sample_world) = Some 1.
Proof.
  destruct (reconnect_after_close sample_world 0 (mkSocket socket_endpoint OPEN [])
              "10:20:00" eq_refl eq_refl) as (_ & Hlogs & _ & Href & _).
  split; assumption.
Defined.

(** ** [LogEntry] *)

(** The style table holds these seven entries and no other. *)
Lemma styles_entries (key : string) (j : JSON) :
  styles !! key = Some j ->
  (key, j) ∈
    [ ("system", JStr "text-magma-600 font-bold");
      ("user", JStr "text-stone-400");
      ("agent_thought", JStr "text-magma-100");
      ("tool_call", JStr "text-amber-500");
      ("tool_result", JStr "text-emerald-500");
      ("error", JStr "text-red-500 bg-red-900/10");
      ("turn_start",
       JStr "text-magma-400 font-bold pt-4 border-b border-magma-900/30 mb-2 inline-block w-full") ].
Proof. apply elem_of_list_to_map_2. Qed.

(** X19: [LogEntry] throws a [TypeError] exactly when the entry's type
    has no string conversion.  Otherwise it returns an element whose
    child is the entry's content and whose class is a style followed by
    the common classes, and the style is the default one exactly when
    the string conversion of the type is neither a key of the style
    table nor the name of a member of [Object.prototype]. *)
Theorem LogEntry_default_iff (log : LogRecord) :
  (to_string (log_type log) = None <-> LogEntry log = Thrown "TypeError") /\
  (forall key,
     to_string (log_type log) = Some key ->
     exists style,
       LogEntry log =
         Normal (mkElement (style ++ common_classes)%string (log_content log)) /\
       (style = default_style <->
        styles !! key = None /\ object_prototype_get key = JUndefined)).
Proof.
  assert (Hreturns : forall key,
            to_string (log_type log) = Some key ->
            exists style,
              LogEntry log =
                Normal (mkElement (style ++ common_classes)%string (log_content log)) /\
              (style = default_style <->
               styles !! key = None /\ object_prototype_get key = JUndefined)).
  { intros key Hkey. unfold LogEntry, object_get. rewrite Hkey.
    destruct (styles !! key) as [j|] eqn:Hown.
    - apply styles_entries in Hown.
      repeat (apply elem_of_cons in Hown as [Hown|Hown];
              [inversion Hown; subst; simpl; eexists; split; [reflexivity|];
               split; [discriminate | by intros [? _]]|]).
      by apply elem_of_nil in Hown.
    - unfold object_prototype_get.
      repeat case_bool_decide; simpl; eexists; (split; [reflexivity|]);
        split; first [discriminate | done | by intros [_ ?]]. }
  split; [|exact Hreturns].
  split.
  - intros Hnone. unfold LogEntry. by rewrite Hnone.
  - intros Hthrown. destruct (to_string (log_type log)) as [key|] eqn:Hkey; [|done].
    destruct (Hreturns key eq_refl) as (style & Heq & _).
    rewrite Heq in Hthrown. discriminate.
Qed.

Lemma LogEntry_default_iff_witness :
  LogEntry (mkLog (js_str "status") (js_str "hello") "10:00:00") =
    Normal (mkElement (default_style ++ common_classes)%string (js_str "hello")).
Proof.
  destruct (proj2 (LogEntry_default_iff (mkLog (js_str "status") (js_str "hello") "10:00:00"))
              "status" eq_refl) as (style & Heq & Hdefault).
  rewrite Heq. f_equal. f_equal. f_equal. apply Hdefault. split; reflexivity.
Defined.

(** ** A whole session *)

Lemma resume_sends_start_message
  (w : World) (own : gmap string JSON) (reference : JSON)
  (id : nat) (s : Socket) (now : string) :
  own !! "file_path" = Some reference ->
  wsRef w = Some id -> sockets w !! id = Some s -> readyState s = OPEN ->
  step w (UploadSettled (Some (JObj own)) now) =
    with_sockets
      (<[id := transmitted (start_message (json_serialize reference)) s]> (sockets w)) w.
Proof.
  intros Hfield Href Hsock Hopen.
  rewrite (ObserverProps.step_calm w (UploadSettled (Some (JObj own)) now) eq_refl).
  unfold handler, run, startInvestigation_resume, try_catch, bind,
    await_json, ret, prop, object_get.
  rewrite Hfield. simpl. unfold ws_send.
  rewrite Href, Hsock, Hopen.
  unfold transmitted, start_message. by rewrite Hopen.
Qed.

(** What a run of frames does to a mounted component that renders, when
    each frame is handled to the end and has a line that renders. *)
Lemma frames_run (frames : list Frame) (w : World) :
  Forall (fun f => frame_shown f = true) frames ->
  mounted w = true ->
  renders w = true ->
  logs (run_events (List.map frame_event frames) w) = logs w ++ List.map frame_entry frames /\
  loading (run_events (List.map frame_event frames) w) =
    (if existsb (frame_is "session_end") frames then false else loading w) /\
  sockets (run_events (List.map frame_event frames) w) = sockets w /\
  requests (run_events (List.map frame_event frames) w) = requests w /\
  mounted (run_events (List.map frame_event frames) w) = true /\
  renders (run_events (List.map frame_event frames) w) = true.
Proof.
  unfold run_events. revert w.
  induction frames as [|f frames IH]; intros w Hall Hm Hr; simpl.
  { by rewrite app_nil_r. }
  inversion Hall as [|? ? Hf Hrest]; subst.
  destruct (ObserverProps.step_frame_shown w f Hf Hm Hr) as (Hstep & Hm' & Hr' & _).
  destruct (IH (step w (frame_event f)) Hrest Hm' Hr') as (-> & -> & -> & -> & -> & ->).
  rewrite step_frame_loading.
  rewrite Hstep. unfold run.
  apply andb_true_iff in Hf as [Hhandled _].
  rewrite (ObserverProps.ws_onmessage_frame f w Hhandled). simpl.
  rewrite <- app_assoc. simpl.
  repeat split; try (by repeat case_match).
  destruct (frame_is "session_end" f); simpl; by destruct (existsb _ frames).
Qed.

(** X20: one investigation from the click to the last frame.  On a
    mounted component with an image selected and an open connection,
    when the upload answers with an object holding [file_path] and
    frames follow that the handler handles to the end and whose entries
    React can render, the component has issued one upload, has sent the
    one start message on the current socket, with the reference as
    [JSON.stringify] writes it, has as its log list exactly the entries
    of the frames received since the click, in order, displays one log
    line for each, and is loading unless one of the frames was a
    [session_end]. *)
Theorem session_transcript
  (w : World) (file : File) (id : nat) (s : Socket)
  (own : gmap string JSON) (reference : JSON) (now : string) (frames : list Frame) :
  mounted w = true ->
  imageFile w = Some file ->
  connected w = true ->
  wsRef w = Some id -> sockets w !! id = Some s -> readyState s = OPEN ->
  own !! "file_path" = Some reference ->
  Forall (fun f => frame_shown f = true) frames ->
  let w' := run_events ([ClickStart; UploadSettled (Some (JObj own)) now]
                        ++ List.map frame_event frames) w in
  requests w' = requests w ++ [upload_request file] /\
  sockets w' =
    <[id := transmitted (start_message (json_serialize reference)) s]> (sockets w) /\
  logs w' = List.map frame_entry frames /\
  loading w' = negb (existsb (frame_is "session_end") frames) /\
  (log_lines <$> displayed w') =
    Some (List.map (fun f => LogEntry (frame_entry f)) frames).
Proof.
  intros Hmounted Hfile Hconn Href Hsock Hopen Hfield Hframes w'.
  set (w1 := with_requests (requests w ++ [upload_request file])
               (with_zoomedImage None (with_logs [] (with_loading true w)))).
  assert (Hstart : step w ClickStart = w1).
  { rewrite (ObserverProps.step_calm w ClickStart eq_refl).
    unfold w1. destruct w; simpl in *; subst. reflexivity. }
  set (w2 := with_sockets
               (<[id := transmitted (start_message (json_serialize reference)) s]>
                  (sockets w)) w1).
  assert (Hsettled : step w1 (UploadSettled (Some (JObj own)) now) = w2).
  { by rewrite (resume_sends_start_message w1 own reference id s now
                  Hfield Href Hsock Hopen). }
  unfold w'. rewrite run_events_app. simpl. rewrite Hstart, Hsettled.
  destruct (frames_run frames w2 Hframes Hmounted eq_refl)
    as (Hlogs & Hloading & Hsockets & Hrequests & Hm' & Hr').
  unfold displayed. rewrite Hm', Hr'. simpl.
  unfold render; simpl. rewrite Hlogs, Hloading, Hsockets, Hrequests.
  simpl. rewrite List.map_map. repeat split.
Qed.

Lemma session_transcript_witness :
  logs (run_events
          ([ClickStart;
            UploadSettled (Some (JObj {[ "file_path" := JStr "uploads/street.jpg" ]})) "10:05:00"]
           ++ List.map frame_event
                [mkFrame 0 (JObj {[ "type" := JStr "agent_thought"; "content" := JStr "A harbour." ]}) "10:05:02";
                 mkFrame 0 (JObj {[ "type" := JStr "session_end"; "content" := JStr "Done." ]}) "10:05:09"])
          sample_world)
  = [mkLog (js_str "agent_thought") (js_str "A harbour.") "10:05:02";
     mkLog (js_str "system") (js_str "Done.") "10:05:09"].
Proof.
  destruct (session_transcript sample_world sample_file 0
              (mkSocket socket_endpoint OPEN [])
              {[ "file_path" := JStr "uploads/street.jpg" ]} (JStr "uploads/street.jpg")
              "10:05:00"
              [mkFrame 0 (JObj {[ "type" := JStr "agent_thought"; "content" := JStr "A harbour." ]}) "10:05:02";
               mkFrame 0 (JObj {[ "type" := JStr "session_end"; "content" := JStr "Done." ]}) "10:05:09"]
              eq_refl eq_refl eq_refl eq_refl eq_refl eq_refl)
    as (_ & _ & Hlogs & _).
  - reflexivity.
  - repeat constructor.
  - exact Hlogs.
Defined.

End ObserverMore.
